(** * The README stamp updater ([scripts/update_readme_date.py])

    A shallow embedding of the script that refreshes the
    [Last updated: YYYY-MM-DD] line of a text document, and the
    properties its specification states about it.

    Python strings are lists of Unicode code points.  The three library
    services the script leans on are modelled executably from their
    documented behaviour: [str.splitlines(keepends=True)], [str.strip()]
    and [re.match] on the compiled stamp pattern.  File access goes
    through a small state-and-exception monad over a store of files. *)

From Stdlib Require Import NArith ZArith Ascii String List Lia Bool.
From stdpp Require Import base option list strings gmap.

Set Default Proof Using "Type".

(** ** Python [str] *)

Module PyStr.

Local Open Scope N_scope.

Definition codepoint := N.
Definition str := list codepoint.

(** An ASCII literal as a [str]. *)
Definition cps (s : string) : str := map N_of_ascii (list_ascii_of_string s).

Definition LF : codepoint := 10%N.
Definition CR : codepoint := 13%N.
Definition FF : codepoint := 12%N.

(** [Py_UNICODE_ISLINEBREAK]: the boundaries [str.splitlines] splits on:
    LF, VT, FF, CR, FS, GS, RS, NEL, LINE SEPARATOR and PARAGRAPH
    SEPARATOR. *)
Definition is_linebreak (c : codepoint) : bool :=
  ((10 <=? c) && (c <=? 13)) || ((28 <=? c) && (c <=? 30))
  || (c =? 133) || (c =? 8232) || (c =? 8233).

(** [Py_UNICODE_ISSPACE]: what [str.strip()] removes and what [\s]
    matches in a [str] pattern. *)
Definition is_space (c : codepoint) : bool :=
  ((9 <=? c) && (c <=? 13)) || ((28 <=? c) && (c <=? 32))
  || (c =? 133) || (c =? 160) || (c =? 5760)
  || ((8192 <=? c) && (c <=? 8202))
  || (c =? 8232) || (c =? 8233) || (c =? 8239) || (c =? 8287)
  || (c =? 12288).

(** [s.splitlines(keepends=True)]: every line keeps its terminator; CR
    immediately followed by LF is one terminator; a last line without
    terminator is kept as it is, and the empty string has no line. *)
Fixpoint splitlines (s : str) : list str :=
  match s with
  | [] => []
  | c :: s' =>
      if is_linebreak c then
        match s' with
        | c' :: s'' =>
            if (c =? CR) && (c' =? LF)
            then [c; c'] :: splitlines s''
            else [c] :: splitlines s'
        | [] => [[c]]
        end
      else
        match splitlines s' with
        | [] => [[c]]
        | l :: ls => (c :: l) :: ls
        end
  end.

(** ["".join(lines)]. *)
Definition join (lines : list str) : str := concat lines.

Fixpoint lstrip (s : str) : str :=
  match s with
  | [] => []
  | c :: s' => if is_space c then lstrip s' else s
  end.

Definition rstrip (s : str) : str := rev (lstrip (rev s)).

(** [s.strip()] with no argument. *)
Definition strip (s : str) : str := rstrip (lstrip s).

Fixpoint startswith (s prefix : str) {struct prefix} : bool :=
  match prefix, s with
  | [], _ => true
  | p :: prefix', c :: s' => (c =? p) && startswith s' prefix'
  | _ :: _, [] => false
  end.

(** [s.endswith(suffix)]. *)
Definition endswith (s suffix : str) : bool :=
  startswith (rev s) (rev suffix).

End PyStr.
Export PyStr.

(** ** Regular expressions

    [re.match] is only used for its truth value, so a pattern is modelled
    by the language it denotes.  [accepts] decides membership with
    derivatives; [matches] is the declarative reading of the same
    language. *)

Module Re.

Local Open Scope N_scope.

Inductive regex : Type :=
| Never
| Empty
| Class (p : codepoint -> bool)
| Cat (r1 r2 : regex)
| Alt (r1 r2 : regex)
| Star (r : regex).

Fixpoint nullable (r : regex) : bool :=
  match r with
  | Never => false
  | Empty => true
  | Class _ => false
  | Cat r1 r2 => nullable r1 && nullable r2
  | Alt r1 r2 => nullable r1 || nullable r2
  | Star _ => true
  end.

Fixpoint deriv (c : codepoint) (r : regex) : regex :=
  match r with
  | Never => Never
  | Empty => Never
  | Class p => if p c then Empty else Never
  | Cat r1 r2 =>
      if nullable r1
      then Alt (Cat (deriv c r1) r2) (deriv c r2)
      else Cat (deriv c r1) r2
  | Alt r1 r2 => Alt (deriv c r1) (deriv c r2)
  | Star r1 => Cat (deriv c r1) (Star r1)
  end.

Fixpoint accepts (r : regex) (s : str) : bool :=
  match s with
  | [] => nullable r
  | c :: s' => accepts (deriv c r) s'
  end.

Inductive matches : regex -> str -> Prop :=
| MEmpty : matches Empty []
| MClass p c : p c = true -> matches (Class p) [c]
| MCat r1 r2 s1 s2 :
    matches r1 s1 -> matches r2 s2 -> matches (Cat r1 r2) (s1 ++ s2)
| MAltL r1 r2 s : matches r1 s -> matches (Alt r1 r2) s
| MAltR r1 r2 s : matches r2 s -> matches (Alt r1 r2) s
| MStarNil r : matches (Star r) []
| MStarApp r s1 s2 :
    matches r s1 -> matches (Star r) s2 -> matches (Star r) (s1 ++ s2).

(** A sequence of sub-patterns, and [r{n}]. *)
Definition seq (rs : list regex) : regex := foldr Cat Empty rs.
Definition rep (n : nat) (r : regex) : regex := seq (replicate n r).

(** [re.IGNORECASE] on a [str] pattern, for an ASCII literal [c]: a cased
    literal matches the code points whose simple lower case is the lower
    case of [c], and the extra equivalents [sre_compile] lists for it; an
    uncased literal matches itself only.  The only code points outside
    ASCII whose simple lower case is an ASCII letter are U+0130 (to i) and
    U+212A (to k); elsewhere the mapping stays outside ASCII and is left
    as the identity here. *)
Definition is_ascii_upper (c : codepoint) : bool := (65 <=? c) && (c <=? 90).
Definition is_ascii_lower (c : codepoint) : bool := (97 <=? c) && (c <=? 122).

Definition simple_lower (x : codepoint) : codepoint :=
  if is_ascii_upper x then x + 32
  else if x =? 304 then 105
  else if x =? 8490 then 107
  else x.

Definition ignorecase_fixes (lo x : codepoint) : bool :=
  ((lo =? 105) && (x =? 305)) || ((lo =? 115) && (x =? 383)).

Definition literal_ignorecase (c : codepoint) : codepoint -> bool :=
  fun x =>
    if is_ascii_upper c || is_ascii_lower c
    then let lo := simple_lower c in
         let lx := simple_lower x in
         (lx =? lo) || ignorecase_fixes lo lx
    else x =? c.

Definition ilit (a : ascii) : regex := Class (literal_ignorecase (N_of_ascii a)).

Definition is_ascii_digit (c : codepoint) : bool := (48 <=? c) && (c <=? 57).

(** [pattern.match(s)] as a truth value, for a pattern [^ body $] without
    [re.MULTILINE]: the body has to match from position 0, and [$] holds
    at the end of the string and just before a final line feed. *)
Definition re_match (body : regex) (s : str) : bool :=
  accepts body s
  || match rev s with
     | c :: s' => (c =? LF) && accepts body (rev s')
     | [] => false
     end.

End Re.
Export Re.

(** ** Files, output streams and exceptions *)

Module Sys.

(** What a path names.  A directory exists but cannot be read as text. *)
Inductive entry : Type :=
| File (content : str)
| Dir.

(** The part of the process environment the script touches.  [files] holds
    the decoded text of every file; [writes] logs each [write_text] call,
    most recent first; [today] is the UTC date the clock formats with
    [%Y-%m-%d]. *)
Record world : Type := World {
  files : gmap string entry;
  writes : list (string * str);
  stdout : list str;
  stderr : list str;
  today : str
}.

Inductive exn : Type :=
| SystemExit (status : Z)
| FileNotFoundError (path : string)
| IsADirectoryError (path : string)
| NotADirectoryError (path : string).

Inductive result (A : Type) : Type :=
| Ok (a : A)
| Raise (e : exn).
Arguments Ok {A} a.
Arguments Raise {A} e.

Definition M (A : Type) : Type := world -> result A * world.

Definition ret {A} (a : A) : M A := fun w => (Ok a, w).
Definition bind {A B} (m : M A) (k : A -> M B) : M B :=
  fun w => match m w with
           | (Ok a, w') => k a w'
           | (Raise e, w') => (Raise e, w')
           end.
Definition raise {A} (e : exn) : M A := fun w => (Raise e, w).

(** [open(..., newline=None)] on reading: CR LF and a lone CR both arrive
    as LF. *)
Fixpoint universal_newlines (s : str) : str :=
  match s with
  | [] => []
  | c :: s' =>
      if (c =? CR)%N then
        match s' with
        | c' :: s'' =>
            if (c' =? LF)%N then LF :: universal_newlines s''
            else LF :: universal_newlines s'
        | [] => [LF]
        end
      else c :: universal_newlines s'
  end.

(** [Path.exists()]. *)
Definition path_exists (path : string) : M bool :=
  fun w => (Ok (bool_decide (is_Some (files w !! path))), w).

(** [Path.read_text(encoding="utf-8")]. *)
Definition read_text (path : string) : M str :=
  fun w => match files w !! path with
           | Some (File content) => (Ok (universal_newlines content), w)
           | Some Dir => (Raise (IsADirectoryError path), w)
           | None => (Raise (FileNotFoundError path), w)
           end.

(** The directory part of a path held in the form [Path] gives it: the
    text before its last slash.  There is none for a plain name, and it is
    empty for a name directly under the root. *)
Fixpoint dirname (path : string) : option string :=
  match path with
  | EmptyString => None
  | String c path' =>
      match dirname path' with
      | Some d => Some (String c d)
      | None => if Ascii.eqb c "/" then Some EmptyString else None
      end
  end.

(** What the parent of [path] is in the store.  The current directory
    and the root are always there. *)
Definition parent_entry (w : world) (path : string) : option entry :=
  match dirname path with
  | None | Some EmptyString => Some Dir
  | Some d => files w !! d
  end.

(** [Path.write_text(data, encoding="utf-8")] where the line separator is
    LF: an existing file is replaced; a new file is created when its
    parent directory is there, and the call raises when it is not. *)
Definition write_text (path : string) (data : str) : M unit :=
  fun w =>
    let done := (Ok tt,
                 World (<[path := File data]> (files w))
                       ((path, data) :: writes w)
                       (stdout w) (stderr w) (today w)) in
    match files w !! path with
    | Some Dir => (Raise (IsADirectoryError path), w)
    | Some (File _) => done
    | None =>
        match parent_entry w path with
        | Some Dir => done
        | Some (File _) => (Raise (NotADirectoryError path), w)
        | None => (Raise (FileNotFoundError path), w)
        end
    end.

Definition print (line : str) : M unit :=
  fun w => (Ok tt,
            World (files w) (writes w) (stdout w ++ [line]) (stderr w)
                  (today w)).

(** [ArgumentParser.error(message)]: the message goes to standard error
    and the process exits with status 2. *)
Definition parser_error {A} (message : str) : M A :=
  fun w => (Raise (SystemExit 2),
            World (files w) (writes w) (stdout w) (stderr w ++ [message])
                  (today w)).

End Sys.
Export Sys.

#[global] Instance M_ret : MRet M := @ret.
#[global] Instance M_bind : MBind M := fun A B k m => bind m k.

(** ** The command line *)

Record namespace : Type := Namespace { target : string; print_date : bool }.

(** What [parser.parse_args(argv)] comes to: the parsed arguments, or an
    exit decided by [argparse] itself (status 2 on malformed arguments, 0
    after [--help]). *)
Inductive parse_outcome : Type :=
| Parsed (args : namespace)
| ParseExit (status : Z).

(** ** Instances for running the script on examples

    The script is parameterised below by the interpreter's table of
    decimal digits beyond ASCII and by [argparse]'s reading of [argv].
    [ascii_digits_only] is the table with no further digit;
    [argv_plain] reads the usual command lines: an optional target and an
    optional [--print-date], in either order ([argparse] itself accepts
    more, such as abbreviated options). *)
Definition ascii_digits_only : codepoint -> bool := fun _ => false.

Definition is_option (a : string) : bool :=
  match a with
  | String "-"%char _ => true
  | _ => false
  end.

Definition argv_plain (argv : list string) : parse_outcome :=
  match argv with
  | [] => Parsed (Namespace "README.md" false)
  | [a] =>
      if String.eqb a "--print-date" then Parsed (Namespace "README.md" true)
      else if String.eqb a "-h" || String.eqb a "--help" then ParseExit 0
      else if is_option a then ParseExit 2
      else Parsed (Namespace a false)
  | [a; b] =>
      if String.eqb a "--print-date" && negb (is_option b)
      then Parsed (Namespace b true)
      else if String.eqb b "--print-date" && negb (is_option a)
      then Parsed (Namespace a true)
      else ParseExit 2
  | _ => ParseExit 2
  end.

(** Documents and worlds of the examples. *)
Module Examples.

Definition date : str := cps "2024-05-06".

(** [# Title], a stamp in mixed case with irregular spacing, and a last
    line left open. *)
Definition doc_stamped : str :=
  cps "# Title" ++ [LF] ++ cps "Last Updated:    2020-01-01   " ++ [LF]
  ++ cps "bye".

Definition doc_title : str := cps "# Title" ++ [LF].

Definition doc_two_stamps : str :=
  cps "Last updated: 2020-01-01" ++ [LF] ++ cps "text" ++ [LF]
  ++ cps "LAST UPDATED: 2021-12-31" ++ [LF].

Definition doc_current : str := cps "Last updated: 2024-05-06" ++ [LF].

(** A stamp line closed by a form feed, then more text. *)
Definition doc_form_feed : str :=
  cps "Last updated: 2020-01-01" ++ [FF] ++ cps "foo" ++ [LF].

Definition world_of (path : string) (content : str) : world :=
  World (<[path := File content]> ∅) [] [] [] date.

Definition world_empty : world := World ∅ [] [] [] date.

End Examples.
Import Examples.

(** Further documents and worlds, for the properties beyond the claims. *)
Module MoreExamples.

Definition line_padded : str :=
  cps "  Last Updated:    2020-01-01   " ++ [LF].

Definition doc_open : str := cps "# Title".

Definition world_two_files : world :=
  World (<["README.md" := File doc_title]>
           (<["NOTES.md" := File doc_current]> ∅))
        [] [] [] date.

(** Two stamp lines closed by a form feed and a vertical tab, then a
    line of text. *)
Definition doc_two_breaks : str :=
  cps "Last updated: 2020-01-01" ++ [FF]
  ++ cps "LAST UPDATED: 2021-12-31" ++ [11%N]
  ++ cps "text" ++ [LF].

Definition world_with_dir : world :=
  World (<["docs" := Dir]> ∅) [] [] [] date.

End MoreExamples.
Import MoreExamples.

(** ** The script *)

Section StampUpdater.

(** [\d] in a [str] pattern matches every code point of category Nd.
    In ASCII these are 0 to 9; beyond ASCII the set is the Unicode table
    of the running interpreter, and [decimal_beyond_ascii] stands for it. *)
Variable decimal_beyond_ascii : codepoint -> bool.

Definition is_decimal (c : codepoint) : bool :=
  is_ascii_digit c || ((128 <=? c)%N && decimal_beyond_ascii c).

Definition space : regex := Class is_space.
Definition digit : regex := Class is_decimal.

(** [re.compile(r"^last updated:\s*\d{4}-\d{2}-\d{2}\s*$", re.IGNORECASE)],
    the part between the anchors. *)
Definition _LAST_UPDATED_PATTERN : regex :=
  seq (map ilit (list_ascii_of_string "last updated:")
       ++ [Star space; rep 4 digit; ilit "-"; rep 2 digit; ilit "-";
           rep 2 digit; Star space]).

Definition _current_utc_date : M str := fun w => (Ok (today w), w).

Definition _normalize_line (line date_str : str) : str :=
  let newline := if endswith line [LF] then [LF] else [] in
  cps "Last updated: " ++ date_str ++ newline.

(** The test of the loop: [_LAST_UPDATED_PATTERN.match(line.strip())]. *)
Definition is_stamp (line : str) : bool :=
  re_match _LAST_UPDATED_PATTERN (strip line).

(** One iteration of [for line in lines], on [(updated_lines, replaced)]. *)
Definition scan_step (date_str : str) (st : list str * bool) (line : str)
  : list str * bool :=
  if is_stamp line
  then (st.1 ++ [_normalize_line line date_str], true)
  else (st.1 ++ [line], st.2).

Definition scan (date_str : str) (lines : list str) : list str * bool :=
  fold_left (scan_step date_str) lines ([], false).

(** [updated_lines[-1] += "\n"] under its guard. *)
Definition terminate_last (updated_lines : list str) : list str :=
  match last updated_lines with
  | Some l =>
      if endswith l [LF] then updated_lines
      else <[pred (length updated_lines) := l ++ [LF]]> updated_lines
  | None => updated_lines
  end.

(** The lines joined into the new content: the scan, then the append when
    nothing was replaced. *)
Definition updated_lines (date_str original : str) : list str :=
  let '(updated, replaced) := scan date_str (splitlines original) in
  if replaced then updated
  else terminate_last updated ++ [cps "Last updated: " ++ date_str ++ [LF]].

Definition new_content (date_str original : str) : str :=
  join (updated_lines date_str original).

Definition update_readme (path : string) (date_str : str) : M bool :=
  present ← path_exists path;
  original ← (if present : bool then read_text path else mret []);
  let new := new_content date_str original in
  if bool_decide (new ≠ original)
  then write_text path new;; mret true
  else mret false.

(** [argparse] is the interpreter's library; its reading of [argv] for the
    parser built in [main] is a parameter. *)
Variable parse_args : list string -> parse_outcome.

Definition main (argv : list string) : M Z :=
  match parse_args argv with
  | ParseExit status => raise (SystemExit status)
  | Parsed args =>
      let readme_path := target args in
      present ← path_exists readme_path;
      (if present : bool then mret tt
       else parser_error
              (cps "README file not found: " ++ cps readme_path));;
      date_str ← _current_utc_date;
      update_readme readme_path date_str;;
      (if print_date args then print date_str else mret tt);;
      mret 0%Z
  end.

(** [sys.exit(main())]: the status the process ends with.  An exception
    that is not [SystemExit] ends it with status 1. *)
Definition exit_status (r : result Z) : Z :=
  match r with
  | Ok status => status
  | Raise (SystemExit status) => status
  | Raise _ => 1%Z
  end.

(** ** Vocabulary of the properties *)

(** A text without line boundary, and a text without carriage return. *)
Definition nobreak (s : str) : Prop := Forall (fun c => is_linebreak c = false) s.
Definition no_cr (s : str) : Prop := Forall (fun c => c <> CR) s.

(** The shape of the lines of a text without carriage return: every line
    but the last is a body closed by one boundary, and the last line may
    be left open. *)
Inductive lines_ok : list str -> Prop :=
| lines_ok_nil : lines_ok []
| lines_ok_open l : l <> [] -> nobreak l -> lines_ok [l]
| lines_ok_cons b c ls :
    nobreak b -> is_linebreak c = true -> c <> CR -> lines_ok ls ->
    lines_ok ((b ++ [c]) :: ls).

(** [YYYY-MM-DD] with ASCII digits. *)
Definition iso_date (d : str) : bool :=
  match d with
  | [y1; y2; y3; y4; h1; m1; m2; h2; d1; d2] =>
      forallb is_ascii_digit [y1; y2; y3; y4; m1; m2; d1; d2]
      && (h1 =? 45)%N && (h2 =? 45)%N
  | _ => false
  end.

(** The stamp line the script writes, without terminator. *)
Definition stamp (date_str : str) : str := cps "Last updated: " ++ date_str.

(** What the loop appends for one line. *)
Definition rewrite_line (date_str line : str) : str :=
  if is_stamp line then _normalize_line line date_str else line.

(** A line closed by a boundary other than the line feed. *)
Definition other_break (line : str) : bool :=
  match last line with
  | Some c => is_linebreak c && negb (c =? LF)%N
  | None => false
  end.

(** What [update_readme] takes as the original content of [path], for a
    path on which neither its read nor its write can fail: a file, or a
    name that is free in a directory that is there. *)
Definition original_of (w : world) (path : string) : option str :=
  match files w !! path with
  | None =>
      match parent_entry w path with
      | Some Dir => Some []
      | _ => None
      end
  | Some (File content) => Some (universal_newlines content)
  | Some Dir => None
  end.

(** The world after [write_text path data]. *)
Definition written (w : world) (path : string) (data : str) : world :=
  World (<[path := File data]> (files w)) ((path, data) :: writes w)
        (stdout w) (stderr w) (today w).

(** [text] spells [pattern] up to the case folding of [re.IGNORECASE]. *)
Definition same_ignoring_case (pattern text : str) : Prop :=
  Forall2 (fun c x => literal_ignorecase c x = true) pattern text.

(** The texts the stamp pattern is written for: the words, any white
    space, then year, month and day in decimal digits, dash separated. *)
Definition stamp_shape (s : str) : Prop :=
  exists head ws year month day,
    s = head ++ ws ++ year ++ [45%N] ++ month ++ [45%N] ++ day
    /\ same_ignoring_case (cps "last updated:") head
    /\ Forall (fun c => is_space c = true) ws
    /\ length year = 4 /\ length month = 2 /\ length day = 2
    /\ Forall (fun c => is_decimal c = true) (year ++ month ++ day).

(** ** Facts about [splitlines] *)

Arguments is_linebreak : simpl never.
Arguments is_space : simpl never.

Lemma splitlines_crlf s : splitlines (CR :: LF :: s) = [CR; LF] :: splitlines s.
Proof. reflexivity. Qed.

Lemma splitlines_break c s :
  is_linebreak c = true -> (c = CR -> head s <> Some LF) ->
  splitlines (c :: s) = [c] :: splitlines s.
Proof.
  intros Hc Hcr. simpl. rewrite Hc. destruct s as [|c' s']; [done|].
  destruct (N.eqb_spec c CR) as [->|]; [|done].
  destruct (N.eqb_spec c' LF) as [->|]; [|done].
  exfalso. by apply Hcr.
Qed.

Lemma splitlines_char c s :
  is_linebreak c = false ->
  splitlines (c :: s)
  = match splitlines s with [] => [[c]] | l :: ls => (c :: l) :: ls end.
Proof. intros Hc. simpl. by rewrite Hc. Qed.

Lemma splitlines_lf s : splitlines (LF :: s) = [LF] :: splitlines s.
Proof. by apply splitlines_break. Qed.

Lemma join_splitlines_eq s : join (splitlines s) = s.
Proof.
  induction s as [|c s IH]; [done|].
  destruct (is_linebreak c) eqn:Hc.
  - destruct (decide (c = CR /\ head s = Some LF)) as [[-> Hs]|Hn].
    + destruct s as [|c' s']; [done|]. injection Hs as ->.
      rewrite splitlines_crlf. rewrite splitlines_lf in IH.
      unfold join in IH |- *. rewrite !concat_cons in IH |- *.
      injection IH as IH. by rewrite IH.
    + rewrite splitlines_break by (try done; intros -> Hs; apply Hn; done).
      unfold join in IH |- *. simpl. by rewrite IH.
  - rewrite splitlines_char by done. unfold join in IH |- *.
    destruct (splitlines s) as [|l ls]; simpl in IH |- *; by rewrite <- IH.
Qed.

Lemma splitlines_nobreak l : l <> [] -> nobreak l -> splitlines l = [l].
Proof.
  induction l as [|c l IH]; [done|]. intros _ Hl.
  apply Forall_cons in Hl as [Hc Hl]. rewrite splitlines_char by done.
  destruct l as [|c' l']; [done|]. by rewrite IH.
Qed.

Lemma splitlines_line b c rest :
  nobreak b -> is_linebreak c = true -> c <> CR ->
  splitlines (b ++ c :: rest) = (b ++ [c]) :: splitlines rest.
Proof.
  intros Hb Hc Hcr. induction Hb as [|a b Ha Hb IH]; simpl app.
  - by apply splitlines_break.
  - rewrite splitlines_char by done. by rewrite IH.
Qed.

Lemma splitlines_join ls : lines_ok ls -> splitlines (join ls) = ls.
Proof.
  induction 1 as [|l Hl Hb|b c ls Hb Hc Hcr Hls IH]; unfold join; simpl.
  - done.
  - rewrite app_nil_r. by apply splitlines_nobreak.
  - rewrite <- app_assoc. simpl. rewrite splitlines_line by done.
    unfold join in IH. by rewrite IH.
Qed.

Lemma lines_ok_splitlines s : no_cr s -> lines_ok (splitlines s).
Proof.
  induction 1 as [|c s Hc Hs IH]; [constructor|].
  destruct (is_linebreak c) eqn:Hb.
  - rewrite splitlines_break by done.
    apply (lines_ok_cons [] c); [constructor|done..].
  - rewrite splitlines_char by done.
    inversion IH as [|l Hl Hn Heq|b c' ls Hn Hc' Hcr Hls Heq].
    + apply lines_ok_open; [done|]. by repeat constructor.
    + apply lines_ok_open; [done|]. by constructor.
    + apply (lines_ok_cons (c :: b)); try done. by constructor.
Qed.

(** ** The derivative matcher decides the language of a pattern *)

Lemma matches_cat_inv r1 r2 s :
  matches (Cat r1 r2) s <->
  exists s1 s2, s = s1 ++ s2 /\ matches r1 s1 /\ matches r2 s2.
Proof.
  split.
  - inversion 1; subst. eauto.
  - intros (s1 & s2 & -> & H1 & H2). by constructor.
Qed.

Lemma matches_alt_inv r1 r2 s :
  matches (Alt r1 r2) s <-> matches r1 s \/ matches r2 s.
Proof.
  split.
  - inversion 1; subst; auto.
  - intros [H|H]; [by apply MAltL|by apply MAltR].
Qed.

Lemma matches_class_inv p s :
  matches (Class p) s <-> exists c, s = [c] /\ p c = true.
Proof.
  split.
  - inversion 1; subst. eauto.
  - intros (c & -> & H). by constructor.
Qed.

Lemma nullable_matches r : nullable r = true <-> matches r [].
Proof.
  induction r as [| |p|r1 IH1 r2 IH2|r1 IH1 r2 IH2|r IH]; simpl.
  - split; [done|inversion 1].
  - split; [constructor|done].
  - split; [done|inversion 1].
  - rewrite andb_true_iff, IH1, IH2, matches_cat_inv. split.
    + intros [H1 H2]. by exists [], [].
    + intros (s1 & s2 & Hs & H1 & H2).
      symmetry in Hs. apply app_eq_nil in Hs as [-> ->]. done.
  - by rewrite orb_true_iff, IH1, IH2, matches_alt_inv.
  - split; [constructor|done].
Qed.

Lemma matches_star_cons r c s :
  matches (Star r) (c :: s) <->
  exists s1 s2, s = s1 ++ s2 /\ matches r (c :: s1) /\ matches (Star r) s2.
Proof.
  split.
  - remember (Star r) as r' eqn:Hr. remember (c :: s) as s' eqn:Hs.
    intros H. revert s Hs.
    induction H as [| | | | | |r0 s1 s2 H1 _ H2 IH2]; try done.
    injection Hr as ->. intros s Hs.
    destruct s1 as [|c1 s1]; simpl in Hs.
    + by apply IH2.
    + injection Hs as -> <-. eauto.
  - intros (s1 & s2 & -> & H1 & H2). by apply (MStarApp r (c :: s1) s2).
Qed.

Lemma matches_cat_cons r1 r2 c s :
  matches (Cat r1 r2) (c :: s) <->
  (exists s1 s2, s = s1 ++ s2 /\ matches r1 (c :: s1) /\ matches r2 s2)
  \/ (matches r1 [] /\ matches r2 (c :: s)).
Proof.
  rewrite matches_cat_inv. split.
  - intros (s1 & s2 & Hs & H1 & H2). destruct s1 as [|c1 s1]; simpl in Hs.
    + subst. by right.
    + injection Hs as <- ->. left. eauto.
  - intros [(s1 & s2 & -> & H1 & H2)|[H1 H2]].
    + by exists (c :: s1), s2.
    + by exists [], (c :: s).
Qed.

Lemma deriv_matches c r s : matches (deriv c r) s <-> matches r (c :: s).
Proof.
  revert s.
  induction r as [| |p|r1 IH1 r2 IH2|r1 IH1 r2 IH2|r IH]; intros s; simpl.
  - split; inversion 1.
  - split; inversion 1.
  - rewrite matches_class_inv. destruct (p c) eqn:Hp; split.
    + inversion 1. eauto.
    + intros (c' & [= <- ->] & _). constructor.
    + inversion 1.
    + intros (c' & [= <- ->] & Hp'). congruence.
  - rewrite matches_cat_cons. destruct (nullable r1) eqn:Hn.
    + rewrite matches_alt_inv, matches_cat_inv, IH2.
      apply nullable_matches in Hn. split.
      * intros [(s1 & s2 & -> & H1 & H2)|H]; [left|by right].
        exists s1, s2. by rewrite <- IH1.
      * intros [(s1 & s2 & -> & H1 & H2)|[_ H]]; [left|by right].
        exists s1, s2. by rewrite IH1.
    + rewrite matches_cat_inv. split.
      * intros (s1 & s2 & -> & H1 & H2). left.
        exists s1, s2. by rewrite <- IH1.
      * intros [(s1 & s2 & -> & H1 & H2)|[H _]].
        -- exists s1, s2. by rewrite IH1.
        -- apply nullable_matches in H. congruence.
  - by rewrite !matches_alt_inv, IH1, IH2.
  - rewrite matches_cat_inv, matches_star_cons. split.
    + intros (s1 & s2 & -> & H1 & H2). exists s1, s2. by rewrite <- IH.
    + intros (s1 & s2 & -> & H1 & H2). exists s1, s2. by rewrite IH.
Qed.

Lemma accepts_matches r s : accepts r s = true <-> matches r s.
Proof.
  revert r. induction s as [|c s IH]; intros r; simpl.
  - apply nullable_matches.
  - by rewrite IH, deriv_matches.
Qed.

(** ** Facts about [strip], [endswith] and the character classes *)

Ltac unfold_class H :=
  rewrite ?orb_true_iff, ?andb_true_iff, ?N.leb_le, ?N.eqb_eq in H.

Lemma linebreak_is_space c : is_linebreak c = true -> is_space c = true.
Proof.
  unfold is_linebreak, is_space. intros H. unfold_class H.
  rewrite ?orb_true_iff, ?andb_true_iff, ?N.leb_le, ?N.eqb_eq. lia.
Qed.

Lemma ascii_digit_not_space c : is_ascii_digit c = true -> is_space c = false.
Proof.
  unfold is_ascii_digit, is_space. intros H. unfold_class H.
  apply not_true_is_false. intros Hs. unfold_class Hs. lia.
Qed.

Lemma not_space_not_linebreak c : is_space c = false -> is_linebreak c = false.
Proof.
  intros H. apply not_true_is_false. intros Hb.
  apply linebreak_is_space in Hb. congruence.
Qed.

Lemma last_rev (s : str) : last (rev s) = head s.
Proof. destruct s as [|a s]; [done|]. simpl. apply last_snoc. Qed.

Lemma head_rev (s : str) : head (rev s) = last s.
Proof. by rewrite <- (rev_involutive s) at 2; rewrite last_rev. Qed.

Lemma lstrip_nonspace c s : is_space c = false -> lstrip (c :: s) = c :: s.
Proof. intros H. simpl. by rewrite H. Qed.

Lemma lstrip_space c s : is_space c = true -> lstrip (c :: s) = lstrip s.
Proof. intros H. simpl. by rewrite H. Qed.

Lemma lstrip_head s c : head (lstrip s) = Some c -> is_space c = false.
Proof.
  induction s as [|a s IH]; simpl; [done|].
  destruct (is_space a) eqn:Ha; [done|]. simpl. congruence.
Qed.

Lemma lstrip_snoc_space l c :
  is_space c = true ->
  lstrip (l ++ [c]) = match lstrip l with [] => [] | _ => lstrip l ++ [c] end.
Proof.
  intros Hc. induction l as [|a l IH]; simpl.
  - by rewrite Hc.
  - destruct (is_space a); [done|]. done.
Qed.

Lemma rstrip_snoc_space s c : is_space c = true -> rstrip (s ++ [c]) = rstrip s.
Proof. intros Hc. unfold rstrip. rewrite rev_unit. by rewrite lstrip_space. Qed.

Lemma rstrip_snoc_nonspace s c :
  is_space c = false -> rstrip (s ++ [c]) = s ++ [c].
Proof.
  intros Hc. unfold rstrip. rewrite rev_unit, lstrip_nonspace by done.
  simpl. by rewrite rev_involutive.
Qed.

Lemma rstrip_last s c : last (rstrip s) = Some c -> is_space c = false.
Proof.
  unfold rstrip. rewrite last_rev. apply lstrip_head.
Qed.

Lemma strip_snoc_space l c : is_space c = true -> strip (l ++ [c]) = strip l.
Proof.
  intros Hc. unfold strip. rewrite lstrip_snoc_space by done.
  destruct (lstrip l) as [|a l'] eqn:Hl; [done|].
  by rewrite rstrip_snoc_space.
Qed.

Lemma endswith_lf s : endswith s [LF] = true <-> last s = Some LF.
Proof.
  unfold endswith. rewrite <- head_rev. simpl.
  destruct (rev s) as [|c r]; simpl; [done|].
  replace (startswith r []) with true by (by destruct r).
  rewrite andb_true_r, N.eqb_eq. split; congruence.
Qed.

Lemma endswith_lf_snoc s c : endswith (s ++ [c]) [LF] = (c =? LF)%N.
Proof.
  unfold endswith. rewrite rev_unit. simpl.
  replace (startswith (rev s) []) with true by (by destruct (rev s)).
  by rewrite andb_true_r.
Qed.

(** ** The stamp the script writes is a stamp line *)

Lemma iso_date_inv d :
  iso_date d = true ->
  exists y1 y2 y3 y4 m1 m2 d1 d2,
    d = [y1; y2; y3; y4; 45; m1; m2; 45; d1; d2]%N
    /\ Forall (fun c => is_ascii_digit c = true) [y1; y2; y3; y4; m1; m2; d1; d2].
Proof.
  intros H. do 10 (destruct d as [|? d]; [done|]). destruct d; [|done].
  unfold iso_date, forallb in H.
  rewrite !andb_true_iff, !N.eqb_eq in H.
  destruct H as [[(?&?&?&?&?&?&?&?&_) ->] ->].
  do 8 eexists. split; [done|]. by repeat constructor.
Qed.

Lemma matches_lit p r c s :
  p c = true -> matches r s -> matches (Cat (Class p) r) (c :: s).
Proof. intros Hp Hr. apply (MCat _ _ [c] s); [by constructor|done]. Qed.

Lemma matches_star_skip q r s : matches r s -> matches (Cat (Star q) r) s.
Proof. intros Hr. apply (MCat _ _ [] s); [constructor|done]. Qed.

Lemma matches_star_one p r c s :
  p c = true -> matches r s -> matches (Cat (Star (Class p)) r) (c :: s).
Proof.
  intros Hp Hr. apply (MCat _ _ [c] s); [|done].
  apply (MStarApp _ [c] []); by constructor.
Qed.

Lemma matches_rep p ds r s :
  Forall (fun c => p c = true) ds -> matches r s ->
  matches (Cat (rep (length ds) (Class p)) r) (ds ++ s).
Proof.
  intros Hds Hr. apply MCat; [|done]. clear Hr.
  induction Hds as [|c ds Hc Hds IH]; [constructor|].
  by apply matches_lit.
Qed.

Lemma ascii_digit_decimal c : is_ascii_digit c = true -> is_decimal c = true.
Proof. unfold is_decimal. by intros ->. Qed.

Lemma matches_stamp date_str :
  iso_date date_str = true -> matches _LAST_UPDATED_PATTERN (stamp date_str).
Proof.
  intros (y1&y2&y3&y4&m1&m2&d1&d2&->&Hd)%iso_date_inv.
  eapply Forall_impl in Hd; [|apply ascii_digit_decimal].
  repeat (apply Forall_cons in Hd as [? Hd]).
  unfold _LAST_UPDATED_PATTERN, stamp. cbn -[rep literal_ignorecase].
  do 13 (apply matches_lit; [reflexivity|]).
  apply matches_star_one; [reflexivity|].
  apply (matches_rep is_decimal [y1; y2; y3; y4]); [by repeat constructor|].
  apply matches_lit; [reflexivity|].
  apply (matches_rep is_decimal [m1; m2]); [by repeat constructor|].
  apply matches_lit; [reflexivity|].
  apply (matches_rep is_decimal [d1; d2]); [by repeat constructor|].
  apply matches_star_skip. constructor.
Qed.

Lemma stamp_last date_str :
  iso_date date_str = true ->
  exists body c, stamp date_str = body ++ [c] /\ is_ascii_digit c = true.
Proof.
  intros (y1&y2&y3&y4&m1&m2&d1&d2&->&Hd)%iso_date_inv.
  exists (cps "Last updated: " ++ [y1; y2; y3; y4; 45; m1; m2; 45; d1]%N), d2.
  split; [by rewrite <- app_assoc|].
  by repeat (apply Forall_cons in Hd as [? Hd]).
Qed.

Lemma strip_stamp date_str :
  iso_date date_str = true -> strip (stamp date_str) = stamp date_str.
Proof.
  intros H. destruct (stamp_last _ H) as (body & c & Hs & Hc).
  unfold strip. replace (lstrip (stamp date_str)) with (stamp date_str).
  - rewrite Hs. by apply rstrip_snoc_nonspace, ascii_digit_not_space.
  - reflexivity.
Qed.

Lemma stamp_nobreak date_str : iso_date date_str = true -> nobreak (stamp date_str).
Proof.
  intros (y1&y2&y3&y4&m1&m2&d1&d2&->&Hd)%iso_date_inv.
  eapply Forall_impl in Hd;
    [|intros c Hc; apply not_space_not_linebreak, ascii_digit_not_space, Hc].
  repeat (apply Forall_cons in Hd as [? Hd]).
  unfold stamp, nobreak. simpl. by repeat constructor.
Qed.

Lemma stamp_not_lf date_str :
  iso_date date_str = true -> endswith (stamp date_str) [LF] = false.
Proof.
  intros H. destruct (stamp_last _ H) as (body & c & -> & Hc).
  rewrite endswith_lf_snoc. apply N.eqb_neq. intros ->. done.
Qed.

Lemma re_match_strip body line :
  re_match body (strip line) = accepts body (strip line).
Proof.
  unfold re_match. destruct (rev (strip line)) as [|c s'] eqn:Hr.
  - by rewrite orb_false_r.
  - assert (Hl : last (strip line) = Some c) by (by rewrite <- head_rev, Hr).
    apply rstrip_last in Hl.
    destruct (N.eqb_spec c LF) as [->|]; [done|]. by rewrite orb_false_r.
Qed.

Lemma is_stamp_matches line :
  is_stamp line = true <-> matches _LAST_UPDATED_PATTERN (strip line).
Proof. unfold is_stamp. by rewrite re_match_strip, accepts_matches. Qed.

Lemma is_stamp_snoc_space line c :
  is_space c = true -> is_stamp (line ++ [c]) = is_stamp line.
Proof. intros Hc. unfold is_stamp. by rewrite strip_snoc_space. Qed.

Lemma is_stamp_stamp date_str :
  iso_date date_str = true -> is_stamp (stamp date_str) = true.
Proof.
  intros H. apply is_stamp_matches. rewrite strip_stamp by done.
  by apply matches_stamp.
Qed.

Lemma is_stamp_stamp_lf date_str :
  iso_date date_str = true -> is_stamp (stamp date_str ++ [LF]) = true.
Proof. intros H. rewrite is_stamp_snoc_space by done. by apply is_stamp_stamp. Qed.

(** ** The scan, line by line *)

Lemma scan_fold date_str lines acc b :
  fold_left (scan_step date_str) lines (acc, b)
  = (acc ++ map (rewrite_line date_str) lines, b || existsb is_stamp lines).
Proof.
  revert acc b. induction lines as [|l lines IH]; intros acc b; simpl.
  - by rewrite app_nil_r, orb_false_r.
  - unfold scan_step at 2, rewrite_line. simpl.
    destruct (is_stamp l); rewrite IH, <- app_assoc; simpl.
    + by rewrite orb_true_r.
    + done.
Qed.

Lemma scan_eq date_str lines :
  scan date_str lines
  = (map (rewrite_line date_str) lines, existsb is_stamp lines).
Proof. unfold scan. by rewrite scan_fold. Qed.

Lemma lookup_map {A B} (f : A -> B) (l : list A) i :
  map f l !! i = f <$> (l !! i).
Proof.
  revert i. induction l as [|a l IH]; intros [|i]; simpl; done.
Qed.

Lemma normalize_line_last line date_str :
  _normalize_line line date_str
  = stamp date_str ++ (if decide (last line = Some LF) then [LF] else []).
Proof.
  unfold _normalize_line, stamp. rewrite <- app_assoc.
  destruct (endswith line [LF]) eqn:He.
  - apply endswith_lf in He. by rewrite decide_True.
  - rewrite decide_False; [done|]. intros Hl%endswith_lf. congruence.
Qed.


Lemma map_rewrite_no_stamp date_str lines :
  existsb is_stamp lines = false -> map (rewrite_line date_str) lines = lines.
Proof.
  induction lines as [|l lines IH]; simpl; [done|].
  intros [Hl Hs]%orb_false_iff. unfold rewrite_line at 1.
  by rewrite Hl, IH.
Qed.

Lemma updated_lines_replaced date_str original :
  existsb is_stamp (splitlines original) = true ->
  updated_lines date_str original
  = map (rewrite_line date_str) (splitlines original).
Proof. intros H. unfold updated_lines. by rewrite scan_eq, H. Qed.

Lemma updated_lines_appended date_str original :
  existsb is_stamp (splitlines original) = false ->
  updated_lines date_str original
  = terminate_last (splitlines original) ++ [stamp date_str ++ [LF]].
Proof.
  intros H. unfold updated_lines. rewrite scan_eq, H.
  rewrite map_rewrite_no_stamp by done. unfold stamp. by rewrite <- app_assoc.
Qed.

Lemma terminate_last_nil : terminate_last [] = [].
Proof. reflexivity. Qed.

Lemma terminate_last_snoc lines l :
  terminate_last (lines ++ [l])
  = lines ++ [if decide (last l = Some LF) then l else l ++ [LF]].
Proof.
  unfold terminate_last. rewrite last_snoc.
  destruct (endswith l [LF]) eqn:He.
  - apply endswith_lf in He. by rewrite decide_True.
  - rewrite decide_False by (intros Hl%endswith_lf; congruence).
    rewrite length_app. simpl. rewrite Nat.add_1_r. simpl.
    rewrite <- (Nat.add_0_r (length lines)). by rewrite insert_app_r.
Qed.

(** ** A second pass over the new content *)

Arguments splitlines : simpl never.
Arguments stamp : simpl never.
Arguments is_stamp : simpl never.
Arguments terminate_last : simpl never.

Lemma nobreak_no_cr s : nobreak s -> no_cr s.
Proof. intros H. eapply Forall_impl; [exact H|]. by intros c Hc ->. Qed.

Lemma nobreak_last l c : nobreak l -> last l = Some c -> is_linebreak c = false.
Proof.
  intros Hl [l' ->]%last_Some. apply Forall_app in Hl as [_ Hl].
  by inversion Hl.
Qed.

Lemma nobreak_not_lf l : nobreak l -> last l <> Some LF.
Proof. intros Hl Hlast. by apply (nobreak_last _ _ Hl) in Hlast. Qed.

Lemma stamp_last_not_lf date_str :
  iso_date date_str = true -> last (stamp date_str) <> Some LF.
Proof. intros H. by apply nobreak_not_lf, stamp_nobreak. Qed.

Lemma is_stamp_normalize date_str line :
  iso_date date_str = true -> is_stamp (_normalize_line line date_str) = true.
Proof.
  intros H. rewrite normalize_line_last. case_decide.
  - by apply is_stamp_stamp_lf.
  - rewrite app_nil_r. by apply is_stamp_stamp.
Qed.

Lemma normalize_normalize date_str line :
  iso_date date_str = true ->
  _normalize_line (_normalize_line line date_str) date_str
  = _normalize_line line date_str.
Proof.
  intros H. rewrite (normalize_line_last (_normalize_line _ _)).
  rewrite normalize_line_last. destruct (decide (last line = Some LF)).
  - by rewrite last_snoc, decide_True.
  - rewrite !app_nil_r. rewrite decide_False by (by apply stamp_last_not_lf).
    by rewrite app_nil_r.
Qed.

Lemma rewrite_line_fixed date_str line :
  iso_date date_str = true ->
  rewrite_line date_str (rewrite_line date_str line) = rewrite_line date_str line.
Proof.
  intros H. unfold rewrite_line at 2 3. destruct (is_stamp line) eqn:Hl.
  - unfold rewrite_line. by rewrite is_stamp_normalize, normalize_normalize.
  - unfold rewrite_line. by rewrite Hl.
Qed.

Lemma existsb_is_stamp_rewrite date_str lines :
  iso_date date_str = true ->
  existsb is_stamp (map (rewrite_line date_str) lines) = existsb is_stamp lines.
Proof.
  intros H. induction lines as [|l lines IH]; simpl; [done|]. rewrite IH.
  f_equal. unfold rewrite_line. destruct (is_stamp l) eqn:Hl; [|done].
  by apply is_stamp_normalize.
Qed.

Lemma map_fixed {A} (f : A -> A) (l : list A) :
  Forall (fun x => f x = x) l -> map f l = l.
Proof. induction 1 as [|x l Hx _ IH]; simpl; [done|]. by rewrite Hx, IH. Qed.

Lemma new_content_fixed date_str s :
  existsb is_stamp (splitlines s) = true ->
  Forall (fun l => rewrite_line date_str l = l) (splitlines s) ->
  new_content date_str s = s.
Proof.
  intros He Hf. unfold new_content. rewrite updated_lines_replaced by done.
  rewrite map_fixed by done. apply join_splitlines_eq.
Qed.

Lemma lines_ok_rewrite date_str lines :
  iso_date date_str = true -> lines_ok lines ->
  Forall (fun l => is_stamp l = true -> other_break l = false) lines ->
  lines_ok (map (rewrite_line date_str) lines).
Proof.
  intros Hd Hok. induction Hok as [|l Hl Hb|b c ls Hb Hc Hcr Hls IH];
    intros Hs; simpl.
  - constructor.
  - unfold rewrite_line. destruct (is_stamp l); [|by constructor].
    rewrite normalize_line_last, decide_False by (by apply nobreak_not_lf).
    rewrite app_nil_r. apply lines_ok_open; [done|]. by apply stamp_nobreak.
  - apply Forall_cons in Hs as [Hs1 Hs]. specialize (IH Hs).
    unfold rewrite_line at 1. destruct (is_stamp (b ++ [c])); [|by constructor].
    specialize (Hs1 eq_refl). unfold other_break in Hs1.
    rewrite last_snoc, Hc in Hs1. simpl in Hs1.
    apply negb_false_iff, N.eqb_eq in Hs1 as ->.
    rewrite normalize_line_last, last_snoc, decide_True by done.
    apply lines_ok_cons; try done. by apply stamp_nobreak.
Qed.

Lemma terminate_last_singleton l :
  terminate_last [l] = [if decide (last l = Some LF) then l else l ++ [LF]].
Proof. apply (terminate_last_snoc [] l). Qed.

Lemma join_cons l lines : join (l :: lines) = l ++ join lines.
Proof. reflexivity. Qed.

Lemma join_singleton l : join [l] = l.
Proof. apply app_nil_r. Qed.

Lemma terminate_last_cons l lines :
  lines <> [] -> terminate_last (l :: lines) = l :: terminate_last lines.
Proof.
  intros Hn. destruct (last lines) as [x|] eqn:Hx.
  - apply last_Some in Hx as [lines' ->].
    rewrite app_comm_cons. by rewrite !terminate_last_snoc.
  - by apply last_None in Hx.
Qed.

#[local] Opaque stamp.

Lemma resplit_appended date_str lines :
  iso_date date_str = true -> lines_ok lines ->
  existsb is_stamp lines = false ->
  let again := splitlines (join (terminate_last lines ++ [stamp date_str ++ [LF]])) in
  existsb is_stamp again = true
  /\ Forall (fun l => rewrite_line date_str l = l) again.
Proof.
  intros Hd Hok. pose proof (stamp_nobreak _ Hd) as Hsb.
  assert (Hfix : rewrite_line date_str (stamp date_str ++ [LF]) = stamp date_str ++ [LF]).
  { unfold rewrite_line. rewrite is_stamp_stamp_lf by done.
    by rewrite normalize_line_last, last_snoc, decide_True. }
  assert (Hone : splitlines (stamp date_str ++ [LF]) = [stamp date_str ++ [LF]]).
  { by rewrite (splitlines_line _ LF []). }
  assert (Hkeep : forall l, is_stamp l = false -> rewrite_line date_str l = l).
  { intros l Hl. unfold rewrite_line. by rewrite Hl. }
  induction Hok as [|l Hl Hb|b c ls Hb Hc Hcr Hls IH]; intros Hs;
    simpl in Hs; cbv zeta; try (cbv zeta in IH).
  - rewrite terminate_last_nil. simpl app. rewrite join_singleton, Hone. simpl.
    rewrite is_stamp_stamp_lf by done. split; [done|]. by repeat constructor.
  - apply orb_false_iff in Hs as [Hs _].
    rewrite terminate_last_singleton, decide_False by (by apply nobreak_not_lf).
    simpl app. rewrite join_cons, join_singleton, <- app_assoc. simpl app.
    rewrite splitlines_line, Hone by done. simpl.
    rewrite is_stamp_snoc_space, Hs, is_stamp_stamp_lf by done.
    split; [done|]. repeat constructor; [|done].
    apply Hkeep. by rewrite is_stamp_snoc_space.
  - apply orb_false_iff in Hs as [Hs1 Hs].
    destruct (decide (ls = [])) as [->|Hne].
    + rewrite terminate_last_singleton, last_snoc.
      simpl app. rewrite join_cons, join_singleton. case_decide as Hlf.
      * rewrite <- app_assoc. simpl app. rewrite splitlines_line, Hone by done.
        simpl. rewrite Hs1, is_stamp_stamp_lf by done.
        split; [done|]. repeat constructor; [by apply Hkeep|done].
      * rewrite <- !app_assoc. simpl app. rewrite splitlines_line by done.
        rewrite splitlines_lf, Hone. simpl.
        rewrite Hs1, is_stamp_stamp_lf by done.
        split; [done|]. repeat constructor; try done; by apply Hkeep.
    + rewrite terminate_last_cons by done. rewrite <- app_comm_cons, join_cons.
      rewrite <- app_assoc. simpl app. rewrite splitlines_line by done. simpl.
      rewrite Hs1. simpl. destruct (IH Hs) as [IH1 IH2].
      split; [done|]. constructor; [by apply Hkeep|done].
Qed.

#[local] Transparent stamp.

Lemma new_content_idem date_str s :
  iso_date date_str = true -> no_cr s ->
  Forall (fun l => is_stamp l = true -> other_break l = false) (splitlines s) ->
  new_content date_str (new_content date_str s) = new_content date_str s.
Proof.
  intros Hd Hs Hf. pose proof (lines_ok_splitlines _ Hs) as Hok.
  destruct (existsb is_stamp (splitlines s)) eqn:He.
  - unfold new_content at 2 3. rewrite updated_lines_replaced by done.
    pose proof (lines_ok_rewrite _ _ Hd Hok Hf) as Hok'.
    apply new_content_fixed; rewrite splitlines_join by done.
    + by rewrite existsb_is_stamp_rewrite.
    + apply Forall_map, Forall_forall. intros l _. by apply rewrite_line_fixed.
  - unfold new_content at 2 3. rewrite updated_lines_appended by done.
    destruct (resplit_appended date_str _ Hd Hok He) as [H1 H2].
    by apply new_content_fixed.
Qed.

Lemma Forall_terminate_last (P : str -> Prop) lines :
  (forall l, P l -> P (l ++ [LF])) -> Forall P lines ->
  Forall P (terminate_last lines).
Proof.
  intros HP Hl. destruct (last lines) as [x|] eqn:Hx.
  - apply last_Some in Hx as [lines' ->]. rewrite terminate_last_snoc.
    apply Forall_app in Hl as [Hl Hx]. apply Forall_app. split; [done|].
    apply Forall_singleton. rewrite Forall_singleton in Hx.
    case_decide; [done|]. by apply HP.
  - apply last_None in Hx as ->. by rewrite terminate_last_nil.
Qed.

Lemma no_cr_new_content date_str s :
  iso_date date_str = true -> no_cr s -> no_cr (new_content date_str s).
Proof.
  intros Hd Hs. pose proof (nobreak_no_cr _ (stamp_nobreak _ Hd)) as Hst.
  assert (Hlines : Forall no_cr (splitlines s)).
  { apply Forall_concat. fold (join (splitlines s)). by rewrite join_splitlines_eq. }
  unfold new_content, join. apply Forall_concat.
  destruct (existsb is_stamp (splitlines s)) eqn:He.
  - rewrite updated_lines_replaced by done. apply Forall_map.
    eapply Forall_impl; [exact Hlines|]. intros l Hl. simpl.
    unfold rewrite_line. destruct (is_stamp l); [|done].
    rewrite normalize_line_last. apply Forall_app. split; [done|].
    case_decide; by repeat constructor.
  - rewrite updated_lines_appended by done. apply Forall_app. split.
    + apply Forall_terminate_last; [|done].
      intros l Hl. apply Forall_app. split; [done|]. by repeat constructor.
    + apply Forall_singleton. apply Forall_app. split; [done|].
      by repeat constructor.
Qed.

(** ** Reading back what was written *)

Lemma universal_newlines_no_cr s : no_cr (universal_newlines s).
Proof.
  assert (H : no_cr (universal_newlines s)
              /\ forall c, no_cr (universal_newlines (c :: s))); [|apply H].
  induction s as [|c' s [IH1 IH2]].
  - split; [constructor|]. intros c. simpl.
    destruct (N.eqb_spec c CR); by repeat constructor.
  - split; [apply IH2|]. intros c. simpl.
    destruct (N.eqb_spec c CR).
    + destruct (N.eqb_spec c' LF); constructor; try done. apply IH2.
    + constructor; [done|]. apply IH2.
Qed.

Lemma universal_newlines_id s : no_cr s -> universal_newlines s = s.
Proof.
  induction 1 as [|c s Hc Hs IH]; [done|]. simpl.
  destruct (N.eqb_spec c CR); [done|]. by rewrite IH.
Qed.

Lemma original_of_cases w path original :
  original_of w path = Some original ->
  (exists content,
      files w !! path = Some (File content)
      /\ original = universal_newlines content)
  \/ (files w !! path = None /\ parent_entry w path = Some Dir
      /\ original = []).
Proof.
  unfold original_of. intros H.
  destruct (files w !! path) as [[content|]|]; simplify_eq.
  - left. eauto.
  - right. destruct (parent_entry w path) as [[|]|]; by simplify_eq.
Qed.

Lemma original_of_no_cr w path original :
  original_of w path = Some original -> no_cr original.
Proof.
  intros [(content & _ & ->)|(_ & _ & ->)]%original_of_cases.
  - apply universal_newlines_no_cr.
  - constructor.
Qed.

Lemma original_of_written w path data :
  original_of (written w path data) path = Some (universal_newlines data).
Proof. unfold original_of, written. simpl. by rewrite lookup_insert_eq. Qed.

Lemma update_readme_run path date_str w original :
  original_of w path = Some original ->
  update_readme path date_str w
  = if decide (new_content date_str original = original)
    then (Ok false, w)
    else (Ok true, written w path (new_content date_str original)).
Proof.
  unfold update_readme, mbind, M_bind, bind, path_exists,
    read_text, write_text, mret, M_ret, ret, written.
  intros [(content & Hf & ->)|(Hf & Hp & ->)]%original_of_cases.
  - rewrite bool_decide_eq_true_2 by eauto. rewrite Hf.
    case_decide as Hn.
    + by rewrite bool_decide_eq_false_2 by (by intros ?).
    + rewrite bool_decide_eq_true_2 by done. by rewrite Hf.
  - rewrite bool_decide_eq_false_2 by (rewrite Hf; by intros [? ?]).
    case_decide as Hn.
    + by rewrite bool_decide_eq_false_2 by (by intros ?).
    + rewrite bool_decide_eq_true_2 by done. by rewrite Hf, Hp.
Qed.

Lemma new_content_empty date_str :
  new_content date_str [] = cps "Last updated: " ++ date_str ++ [LF].
Proof.
  unfold new_content. rewrite updated_lines_appended by done.
  change (splitlines []) with (@nil str).
  rewrite terminate_last_nil, app_nil_l, join_singleton.
  unfold stamp. by rewrite <- app_assoc.
Qed.

Lemma new_content_has_stamp date_str s :
  iso_date date_str = true -> no_cr s ->
  Forall (fun l => is_stamp l = true -> other_break l = false) (splitlines s) ->
  existsb is_stamp (splitlines (new_content date_str s)) = true.
Proof.
  intros Hd Hs Hf. pose proof (lines_ok_splitlines _ Hs) as Hok.
  unfold new_content. destruct (existsb is_stamp (splitlines s)) eqn:He.
  - rewrite updated_lines_replaced by done.
    rewrite splitlines_join by (by apply lines_ok_rewrite).
    by rewrite existsb_is_stamp_rewrite.
  - rewrite updated_lines_appended by done.
    by destruct (resplit_appended date_str _ Hd Hok He).
Qed.

Lemma splitlines_new_content_replaced date_str s :
  iso_date date_str = true -> no_cr s ->
  Forall (fun l => is_stamp l = true -> other_break l = false) (splitlines s) ->
  existsb is_stamp (splitlines s) = true ->
  splitlines (new_content date_str s) = updated_lines date_str s.
Proof.
  intros Hd Hs Hf He. pose proof (lines_ok_splitlines _ Hs) as Hok.
  unfold new_content. rewrite updated_lines_replaced by done.
  apply splitlines_join. by apply lines_ok_rewrite.
Qed.

(** A document that is exactly the stamp of the day is left alone. *)
Lemma current_stamp_unchanged path date_str w :
  iso_date date_str = true ->
  files w !! path = Some (File (stamp date_str ++ [LF])) ->
  update_readme path date_str w = (Ok false, w).
Proof.
  intros Hd Hf. pose proof (stamp_nobreak _ Hd) as Hb.
  assert (Hcr : no_cr (stamp date_str ++ [LF])).
  { apply Forall_app. split; [by apply nobreak_no_cr|by repeat constructor]. }
  assert (Ho : original_of w path = Some (stamp date_str ++ [LF])).
  { unfold original_of. by rewrite Hf, universal_newlines_id. }
  rewrite (update_readme_run _ _ _ _ Ho). rewrite decide_True; [done|].
  assert (Hone : splitlines (stamp date_str ++ [LF]) = [stamp date_str ++ [LF]]).
  { by rewrite (splitlines_line _ LF []). }
  apply new_content_fixed; rewrite Hone.
  - cbn [existsb]. by rewrite is_stamp_stamp_lf.
  - repeat constructor. unfold rewrite_line.
    rewrite is_stamp_stamp_lf by done.
    by rewrite normalize_line_last, last_snoc, decide_True.
Qed.

(** With a date that is not in [YYYY-MM-DD] form the appended line is no
    stamp line, and every run appends another one. *)
Lemma malformed_date_appends_again :
  new_content (cps "today") [] = cps "Last updated: today" ++ [LF]
  /\ new_content (cps "today") (cps "Last updated: today" ++ [LF])
     = cps "Last updated: today" ++ [LF] ++ cps "Last updated: today" ++ [LF].
Proof. vm_compute. done. Qed.

(** The status of the process when the target is missing. *)
Lemma main_missing_target_status argv args w :
  parse_args argv = Parsed args ->
  files w !! target args = None ->
  exit_status (main argv w).1 = 2%Z.
Proof.
  intros Hp Hf. unfold main. rewrite Hp.
  unfold mbind, M_bind, bind, path_exists, parser_error.
  by rewrite Hf, bool_decide_eq_false_2 by (by intros [? ?]).
Qed.


(** * The properties of the specification *)

(** Where the terminator is kept: in the scan of [update_readme] the line
    at each position is replaced exactly when its trimmed form is in the
    language of the stamp pattern; a matching line that ends with a line
    feed, or with no line boundary at all, is replaced by
    [Last updated: <date_str>] followed by that line feed, or by nothing;
    a line that does not match is kept, and so is the number of lines. *)
Lemma scan_keeps_line_feed date_str original i line :
  splitlines original !! i = Some line ->
  let updated := (scan date_str (splitlines original)).1 in
  length updated = length (splitlines original)
  /\ (matches _LAST_UPDATED_PATTERN (strip line) ->
      other_break line = false ->
      updated !! i
      = Some (cps "Last updated: " ++ date_str
              ++ (if decide (last line = Some LF) then [LF] else [])))
  /\ (~ matches _LAST_UPDATED_PATTERN (strip line) ->
      updated !! i = Some line).
Proof.
  intros Hi. cbv zeta. rewrite scan_eq. cbn [fst].
  assert (Hout : map (rewrite_line date_str) (splitlines original) !! i
                 = Some (rewrite_line date_str line))
    by (by rewrite lookup_map, Hi).
  rewrite length_map. split; [done|]. split.
  - intros Hm%is_stamp_matches _. etrans; [exact Hout|]. unfold rewrite_line.
    rewrite Hm, normalize_line_last. unfold stamp. by rewrite <- app_assoc.
  - intros Hn. etrans; [exact Hout|]. unfold rewrite_line.
    rewrite <- is_stamp_matches in Hn. by apply not_true_is_false in Hn as ->.
Qed.

(** C1: the replacement does not keep the line's own terminator when that
    terminator is not a line feed.  In the document [doc_form_feed] the
    first line is the stamp closed by a form feed; it matches, and the
    scan puts [Last updated: 2024-05-06] in its place with no terminator,
    not the stamp followed by the form feed. *)
Theorem terminator_lost_after_form_feed :
  let line := cps "Last updated: 2020-01-01" ++ [FF] in
  let updated := (scan date (splitlines doc_form_feed)).1 in
  splitlines doc_form_feed !! 0%nat = Some line
  /\ last line = Some FF
  /\ is_linebreak FF = true
  /\ is_stamp line = true
  /\ updated !! 0%nat = Some (cps "Last updated: 2024-05-06")
  /\ updated !! 0%nat <> Some (cps "Last updated: 2024-05-06" ++ [FF]).
Proof.
  cbv zeta. repeat split; try (vm_compute; reflexivity).
  vm_compute. discriminate.
Qed.


(** C3: [update_readme] returns true and overwrites the file with the new
    content, in one write, when the new content differs from the
    original; when they are equal it returns false and leaves the files
    and the write log untouched. *)
Theorem update_readme_writes_iff_changed path date_str w original :
  original_of w path = Some original ->
  let new := new_content date_str original in
  (new <> original ->
   update_readme path date_str w = (Ok true, written w path new))
  /\ (new = original -> update_readme path date_str w = (Ok false, w)).
Proof.
  intros H. cbv zeta. rewrite (update_readme_run _ _ _ _ H).
  split; intros Hn; [by rewrite decide_False|by rewrite decide_True].
Qed.

(** C4: the invariant fails on a document whose stamp line is closed by a
    form feed.  [splitlines] makes the stamp a line of its own, the
    replacement drops the form feed, and the content written has no line
    matching the stamp pattern; a further run appends a stamp to it. *)
Theorem stamp_lost_after_form_feed :
  let w := world_of "README.md" doc_form_feed in
  let new := new_content date doc_form_feed in
  iso_date date = true
  /\ original_of w "README.md" = Some doc_form_feed
  /\ map is_stamp (splitlines doc_form_feed) = [true; false]
  /\ update_readme "README.md" date w = (Ok true, written w "README.md" new)
  /\ new = cps "Last updated: 2024-05-06foo" ++ [LF]
  /\ map is_stamp (splitlines new) = [false]
  /\ new_content date new = new ++ cps "Last updated: 2024-05-06" ++ [LF].
Proof. vm_compute. done. Qed.

(** C5, as amended: for a well-formed date and a document in which no
    line matching the stamp pattern is closed by a line boundary other
    than the line feed, the first call returns true exactly when its new
    content differs from the original, and the second call returns false
    and leaves the files and the write log as the first call left them. *)
Theorem second_run_unchanged path date_str w original :
  iso_date date_str = true ->
  original_of w path = Some original ->
  Forall (fun l => matches _LAST_UPDATED_PATTERN (strip l) ->
                   other_break l = false) (splitlines original) ->
  exists changed w1,
    update_readme path date_str w = (Ok changed, w1)
    /\ (changed = true <-> new_content date_str original <> original)
    /\ update_readme path date_str w1 = (Ok false, w1).
Proof.
  intros Hd Ho Hf. pose proof (original_of_no_cr _ _ _ Ho) as Hcr.
  assert (Hf' : Forall (fun l => is_stamp l = true -> other_break l = false)
                       (splitlines original)).
  { eapply Forall_impl; [exact Hf|]. intros l Hl Hs. by apply Hl, is_stamp_matches. }
  rewrite (update_readme_run _ _ _ _ Ho). case_decide as Hn.
  - exists false, w. split; [done|]. split; [by split|].
    rewrite (update_readme_run _ _ _ _ Ho). by rewrite decide_True.
  - exists true, (written w path (new_content date_str original)).
    split; [done|]. split; [by split|].
    rewrite (update_readme_run _ _ _ (new_content date_str original)).
    + rewrite decide_True; [done|]. by apply new_content_idem.
    + rewrite original_of_written, universal_newlines_id; [done|].
      by apply no_cr_new_content.
Qed.

(** C6: the written content loses lines when stamp lines are closed by
    boundaries other than the line feed.  [doc_two_breaks] has three
    lines, two of them stamp lines closed by a form feed and a vertical
    tab; both are rewritten without terminator, and the content written
    is one line. *)
Theorem lines_merged_after_other_breaks :
  let w := world_of "README.md" doc_two_breaks in
  let new := new_content date doc_two_breaks in
  original_of w "README.md" = Some doc_two_breaks
  /\ map is_stamp (splitlines doc_two_breaks) = [true; true; false]
  /\ length (updated_lines date doc_two_breaks) = 3
  /\ update_readme "README.md" date w = (Ok true, written w "README.md" new)
  /\ new = cps "Last updated: 2024-05-06Last updated: 2024-05-06text" ++ [LF]
  /\ length (splitlines new) = 1.
Proof. vm_compute. done. Qed.

(** C7, as amended: for a path that does not exist and whose parent
    directory is there, and for an empty file, the original content is
    the empty string, the call succeeds and returns true, and the file
    then holds exactly [Last updated: <date_str>] and a line feed. *)
Theorem update_readme_empty_document path date_str w :
  (files w !! path = None /\ parent_entry w path = Some Dir)
  \/ files w !! path = Some (File []) ->
  original_of w path = Some []
  /\ update_readme path date_str w
     = (Ok true, written w path (cps "Last updated: " ++ date_str ++ [LF])).
Proof.
  intros H. assert (Ho : original_of w path = Some []).
  { unfold original_of. by destruct H as [[-> ->] | ->]. }
  split; [done|]. rewrite (update_readme_run _ _ _ _ Ho), new_content_empty.
  by rewrite decide_False.
Qed.

(** C8: once [argparse] has read the arguments, [main] on a target that
    does not exist puts the message on standard error and exits with
    status 2, the files and the write log being those it started with;
    on a target that is a readable file it returns 0. *)
Theorem main_exit_status argv args w :
  parse_args argv = Parsed args ->
  (files w !! target args = None ->
   main argv w
   = (Raise (SystemExit 2),
      World (files w) (writes w) (stdout w)
            (stderr w ++ [cps "README file not found: " ++ cps (target args)])
            (today w)))
  /\ (forall content,
        files w !! target args = Some (File content) ->
        exists w', main argv w = (Ok 0%Z, w')).
Proof.
  intros Hp. unfold main. rewrite Hp. split.
  - intros Hf. unfold mbind, M_bind, bind, path_exists, parser_error.
    by rewrite Hf, bool_decide_eq_false_2 by (by intros [? ?]).
  - intros content Hf.
    assert (Ho : original_of w (target args) = Some (universal_newlines content)).
    { unfold original_of. by rewrite Hf. }
    unfold mbind, M_bind, bind, path_exists, _current_utc_date, mret, M_ret, ret.
    rewrite Hf, bool_decide_eq_true_2 by eauto.
    rewrite (update_readme_run _ _ _ _ Ho).
    case_decide; destruct (print_date args); simpl; eauto.
Qed.

(** C9: splitting a string into lines that keep their terminators and
    joining the lines gives the string back. *)
Theorem splitlines_round_trip s : join (splitlines s) = s.
Proof. apply join_splitlines_eq. Qed.

(** C10: two runs that read the same original content and get the same
    date return the same boolean, and either both leave their world as it
    was or both write the same new content to their path. *)
Theorem update_readme_deterministic date_str original w1 p1 w2 p2 :
  original_of w1 p1 = Some original ->
  original_of w2 p2 = Some original ->
  exists changed new,
    (update_readme p1 date_str w1).1 = Ok changed
    /\ (update_readme p2 date_str w2).1 = Ok changed
    /\ (update_readme p1 date_str w1).2
       = (if changed then written w1 p1 new else w1)
    /\ (update_readme p2 date_str w2).2
       = (if changed then written w2 p2 new else w2).
Proof.
  intros H1 H2.
  rewrite (update_readme_run _ _ _ _ H1), (update_readme_run _ _ _ _ H2).
  case_decide.
  - by exists false, original.
  - by exists true, (new_content date_str original).
Qed.

(** * Further properties of the script *)

(** ** What the loop takes for a stamp line *)

Lemma lstrip_app_spaces ws s :
  Forall (fun c => is_space c = true) ws -> lstrip (ws ++ s) = lstrip s.
Proof. induction 1 as [|c ws Hc _ IH]; [done|]. simpl. by rewrite Hc. Qed.

Lemma rstrip_app_spaces s ws :
  Forall (fun c => is_space c = true) ws -> rstrip (s ++ ws) = rstrip s.
Proof.
  intros H. unfold rstrip. rewrite rev_app_distr, lstrip_app_spaces; [done|].
  by apply Forall_rev.
Qed.

Lemma lstrip_spaces s :
  exists ws, s = ws ++ lstrip s /\ Forall (fun c => is_space c = true) ws.
Proof.
  induction s as [|a s (ws & Hs & Hw)]; [by exists []|]. simpl.
  destruct (is_space a) eqn:Ha; [|by exists []].
  exists (a :: ws). split; [simpl; by f_equal|by constructor].
Qed.

Lemma strip_spaces line :
  exists ws1 ws2,
    line = ws1 ++ strip line ++ ws2
    /\ Forall (fun c => is_space c = true) ws1
    /\ Forall (fun c => is_space c = true) ws2.
Proof.
  destruct (lstrip_spaces line) as (ws1 & H1 & Hw1).
  destruct (lstrip_spaces (rev (lstrip line))) as (ws2 & H2 & Hw2).
  exists ws1, (rev ws2). split; [|split; [done|by apply Forall_rev]].
  unfold strip, rstrip. rewrite <- rev_app_distr, <- H2, rev_involutive. done.
Qed.

Lemma strip_between ws1 s ws2 a z :
  Forall (fun c => is_space c = true) ws1 ->
  Forall (fun c => is_space c = true) ws2 ->
  head s = Some a -> is_space a = false ->
  last s = Some z -> is_space z = false ->
  strip (ws1 ++ s ++ ws2) = s.
Proof.
  intros H1 H2 Ha Hna Hz Hnz. unfold strip. rewrite lstrip_app_spaces by done.
  destruct s as [|a' s']; [done|]. injection Ha as ->.
  rewrite <- app_comm_cons, lstrip_nonspace by done.
  rewrite app_comm_cons, rstrip_app_spaces by done.
  apply last_Some in Hz as [b ->]. by apply rstrip_snoc_nonspace.
Qed.

Lemma simple_lower_cases x :
  (simple_lower x = x + 32 /\ 65 <= x <= 90 \/ simple_lower x = 105 /\ x = 304
   \/ simple_lower x = 107 /\ x = 8490 \/ simple_lower x = x)%N.
Proof.
  unfold simple_lower, is_ascii_upper.
  destruct (N.leb_spec 65 x), (N.leb_spec x 90); simpl; try lia;
    destruct (N.eqb_spec x 304); try lia; destruct (N.eqb_spec x 8490); lia.
Qed.

Lemma literal_ignorecase_not_space c x :
  is_ascii_lower c = true -> literal_ignorecase c x = true ->
  is_space x = false.
Proof.
  unfold literal_ignorecase, is_ascii_lower. intros Hc. rewrite Hc, orb_true_r.
  unfold_class Hc. cbv zeta. unfold ignorecase_fixes.
  assert (Hlo : simple_lower c = c).
  { unfold simple_lower, is_ascii_upper.
    destruct (N.leb_spec c 90); [lia|]. rewrite andb_false_r.
    destruct (N.eqb_spec c 304); [lia|]. by destruct (N.eqb_spec c 8490); [lia|]. }
  rewrite Hlo. intros H. unfold_class H.
  pose proof (simple_lower_cases x) as Hx.
  apply not_true_is_false. intros Hs. unfold is_space in Hs. unfold_class Hs.
  lia.
Qed.

Lemma matches_empty_inv s : matches Empty s <-> s = [].
Proof. split; [by inversion 1|intros ->; constructor]. Qed.

Lemma matches_lit_inv p r s :
  matches (Cat (Class p) r) s <->
  exists c s', s = c :: s' /\ p c = true /\ matches r s'.
Proof.
  rewrite matches_cat_inv. split.
  - intros (s1 & s2 & -> & (c & -> & Hc)%matches_class_inv & Hr). eauto.
  - intros (c & s' & -> & Hc & Hr). exists [c], s'.
    split; [done|]. split; [by constructor|done].
Qed.

Lemma matches_star_class p s :
  matches (Star (Class p)) s <-> Forall (fun c => p c = true) s.
Proof.
  split.
  - remember (Star (Class p)) as r eqn:Hr. intros H.
    induction H as [| | | | | |r0 s1 s2 H1 _ H2 IH2]; try done.
    injection Hr as ->. apply matches_class_inv in H1 as (c & -> & Hc).
    constructor; [done|]. by apply IH2.
  - induction 1 as [|c s Hc _ IH]; [constructor|].
    apply (MStarApp _ [c] s); [by constructor|done].
Qed.

Lemma matches_rep_class p n s :
  matches (rep n (Class p)) s <->
  length s = n /\ Forall (fun c => p c = true) s.
Proof.
  revert s. induction n as [|n IH]; intros s.
  - change (rep 0 (Class p)) with Empty. rewrite matches_empty_inv. split.
    + by intros ->.
    + intros [Hl _]. by destruct s.
  - change (rep (S n) (Class p)) with (Cat (Class p) (rep n (Class p))).
    rewrite matches_lit_inv. split.
    + intros (c & s' & -> & Hc & [Hl Hs]%IH). simpl. split; [by f_equal|].
      by constructor.
    + intros [Hl Hs]. destruct s as [|c s']; [done|].
      apply Forall_cons in Hs as [Hc Hs]. exists c, s'.
      split; [done|]. split; [done|]. apply IH. split; [by injection Hl|done].
Qed.

Lemma matches_literals cs r s :
  matches (foldr Cat r (map (fun c => Class (literal_ignorecase c)) cs)) s <->
  exists head rest,
    s = head ++ rest /\ same_ignoring_case cs head /\ matches r rest.
Proof.
  revert s. induction cs as [|c cs IH]; intros s; simpl.
  - split.
    + intros H. exists [], s. split; [done|]. split; [constructor|done].
    + intros (head & rest & -> & ->%Forall2_nil_inv_l & H). done.
  - rewrite matches_lit_inv. split.
    + intros (x & s' & -> & Hx & (head & rest & -> & Hh & Hr)%IH).
      exists (x :: head), rest. split; [done|]. split; [by constructor|done].
    + intros (head & rest & -> & (x & head' & Hx & Hh & ->)%Forall2_cons_inv_l
              & Hr).
      exists x, (head' ++ rest). split; [done|]. split; [done|].
      apply IH. eauto.
Qed.

(** The pattern after the words: white space, the date, white space. *)
Lemma matches_date_part s :
  matches (seq [Star space; rep 4 digit; ilit "-"; rep 2 digit; ilit "-";
                rep 2 digit; Star space]) s <->
  exists ws year month day ws',
    s = ws ++ year ++ [45%N] ++ month ++ [45%N] ++ day ++ ws'
    /\ Forall (fun c => is_space c = true) ws
    /\ length year = 4 /\ length month = 2 /\ length day = 2
    /\ Forall (fun c => is_decimal c = true) (year ++ month ++ day)
    /\ Forall (fun c => is_space c = true) ws'.
Proof.
  cbn -[rep literal_ignorecase]. split.
  - intros H.
    apply matches_cat_inv in H as (ws & ? & -> & Hws%matches_star_class & H1).
    apply matches_cat_inv in H1 as (year & ? & -> & [? Hy]%matches_rep_class & H2).
    apply matches_lit_inv in H2 as (? & ? & -> & ->%N.eqb_eq & H3).
    apply matches_cat_inv in H3 as (month & ? & -> & [? Hm]%matches_rep_class & H4).
    apply matches_lit_inv in H4 as (? & ? & -> & ->%N.eqb_eq & H5).
    apply matches_cat_inv in H5 as (day & ? & -> & [? Hdy]%matches_rep_class & H6).
    apply matches_cat_inv in H6 as (ws' & ? & -> & Hws'%matches_star_class
                                    & ->%matches_empty_inv).
    exists ws, year, month, day, ws'. rewrite app_nil_r, !Forall_app.
    by repeat split.
  - intros (ws & year & month & day & ws' & -> & Hws & Hly & Hlm & Hld & Hd & Hws').
    rewrite !Forall_app in Hd. destruct Hd as (Hy & Hm & Hdy).
    apply MCat; [by apply matches_star_class|].
    apply MCat; [by apply matches_rep_class|].
    apply matches_lit; [reflexivity|].
    apply MCat; [by apply matches_rep_class|].
    apply matches_lit; [reflexivity|].
    apply MCat; [by apply matches_rep_class|].
    rewrite <- (app_nil_r ws').
    apply MCat; [by apply matches_star_class|constructor].
Qed.

Lemma matches_pattern_shape s :
  matches _LAST_UPDATED_PATTERN s <->
  exists core ws,
    s = core ++ ws /\ stamp_shape core
    /\ Forall (fun c => is_space c = true) ws.
Proof.
  change _LAST_UPDATED_PATTERN
    with (foldr Cat
            (seq [Star space; rep 4 digit; ilit "-"; rep 2 digit; ilit "-";
                  rep 2 digit; Star space])
            (map (fun c => Class (literal_ignorecase c)) (cps "last updated:"))).
  rewrite matches_literals. split.
  - intros (head & rest & -> & Hh & (ws & year & month & day & ws' & -> & Hws
                                   & Hly & Hlm & Hld & Hd & Hws')%matches_date_part).
    exists (head ++ ws ++ year ++ [45%N] ++ month ++ [45%N] ++ day), ws'.
    split; [by rewrite <- !app_assoc|]. split; [|done].
    exists head, ws, year, month, day. by repeat split.
  - intros (core & ws' & -> & (head & ws & year & month & day & -> & Hh & Hws
                             & Hly & Hlm & Hld & Hd) & Hws').
    exists head, (ws ++ year ++ [45%N] ++ month ++ [45%N] ++ day ++ ws').
    split; [by rewrite <- !app_assoc|]. split; [done|].
    apply matches_date_part. exists ws, year, month, day, ws'. by repeat split.
Qed.

Lemma stamp_shape_ends core :
  (forall c, decimal_beyond_ascii c = true -> is_space c = false) ->
  stamp_shape core ->
  exists a z, head core = Some a /\ is_space a = false
              /\ last core = Some z /\ is_space z = false.
Proof.
  intros Hnd (head & ws & year & month & day & -> & Hh & Hws
              & Hly & Hlm & Hld & Hd).
  rewrite !Forall_app in Hd. destruct Hd as (_ & _ & Hdy).
  unfold same_ignoring_case in Hh.
  let l := eval vm_compute in (cps "last updated:") in
    change (cps "last updated:") with l in Hh.
  apply Forall2_cons_inv_l in Hh as (a & head' & Ha & _ & ->).
  destruct day as [|d1 [|d2 [|? ?]]]; try done.
  apply Forall_cons in Hdy as [_ [Hd2 _]%Forall_cons].
  exists a, d2. split; [done|]. split.
  - by apply (literal_ignorecase_not_space 108%N).
  - split.
    + rewrite !app_assoc. change [d1; d2] with ([d1] ++ [d2]).
      rewrite app_assoc. apply last_snoc.
    + unfold is_decimal in Hd2. apply orb_true_iff in Hd2 as [Hd2|Hd2].
      * by apply ascii_digit_not_space.
      * apply andb_true_iff in Hd2 as [_ Hd2]. by apply Hnd.
Qed.

(** X1: the test of the loop holds for a line exactly when the line is
    white space, then a text of the stamp shape, then white space: the
    words [last updated:] in any case, optional white space, and a date
    of four, two and two decimal digits separated by dashes. *)
Theorem is_stamp_iff_shape line :
  (forall c, decimal_beyond_ascii c = true -> is_space c = false) ->
  is_stamp line = true <->
  exists ws1 core ws2,
    line = ws1 ++ core ++ ws2
    /\ Forall (fun c => is_space c = true) ws1
    /\ Forall (fun c => is_space c = true) ws2
    /\ stamp_shape core.
Proof.
  intros Hnd. rewrite is_stamp_matches, matches_pattern_shape. split.
  - intros (core & ws & Hs & Hc & Hws).
    destruct (strip_spaces line) as (ws1 & ws2 & Hl & H1 & H2).
    exists ws1, core, (ws ++ ws2). rewrite Hs, <- app_assoc in Hl.
    split; [done|]. split; [done|]. split; [by apply Forall_app|done].
  - intros (ws1 & core & ws2 & -> & H1 & H2 & Hc).
    destruct (stamp_shape_ends _ Hnd Hc) as (a & z & Ha & Hna & Hz & Hnz).
    rewrite (strip_between _ _ _ a z) by done.
    exists core, []. rewrite app_nil_r. by repeat split.
Qed.

(** ** The replacement line and the lines of the new content *)

Lemma is_stamp_rewrite_line date_str line :
  iso_date date_str = true ->
  is_stamp (rewrite_line date_str line) = is_stamp line.
Proof.
  intros Hd. unfold rewrite_line. destruct (is_stamp line) eqn:Hl; [|done].
  by apply is_stamp_normalize.
Qed.

(** X2: for a well-formed date the line written in place of a stamp line
    is one line, matches the stamp pattern itself, and is left as it is
    when it is replaced again. *)
Theorem normalize_line_stable date_str line :
  iso_date date_str = true ->
  let new_line := _normalize_line line date_str in
  splitlines new_line = [new_line]
  /\ is_stamp new_line = true
  /\ _normalize_line new_line date_str = new_line.
Proof.
  intros Hd. cbv zeta. split; [|split].
  - rewrite normalize_line_last. pose proof (stamp_nobreak _ Hd) as Hb.
    case_decide.
    + by rewrite (splitlines_line _ LF []).
    + rewrite app_nil_r. apply splitlines_nobreak; [|done].
      unfold stamp. by destruct date_str.
  - by apply is_stamp_normalize.
  - by apply normalize_normalize.
Qed.

Lemma filter_map_length {A} (f : A -> bool) (g : A -> A) (l : list A) :
  (forall x, f (g x) = f x) ->
  length (List.filter f (map g l)) = length (List.filter f l).
Proof.
  intros H. induction l as [|x l IH]; simpl; [done|]. rewrite H.
  destruct (f x); simpl; by rewrite IH.
Qed.

Lemma filter_none {A} (f : A -> bool) (l : list A) :
  existsb f l = false -> List.filter f l = [].
Proof.
  induction l as [|x l IH]; simpl; [done|].
  intros [-> Hl]%orb_false_iff. by apply IH.
Qed.

Lemma filter_some {A} (f : A -> bool) (l : list A) :
  existsb f l = true -> 1 <= length (List.filter f l).
Proof.
  induction l as [|x l IH]; simpl; [done|].
  destruct (f x); simpl; [lia|]. done.
Qed.

Lemma terminate_last_no_stamp lines :
  existsb is_stamp lines = false ->
  existsb is_stamp (terminate_last lines) = false.
Proof.
  intros H. apply not_true_is_false. intros (l & Hl & Hs)%existsb_exists.
  assert (HF : Forall (fun l => is_stamp l = false) (terminate_last lines)).
  { apply Forall_terminate_last.
    - intros l' Hl'. by rewrite is_stamp_snoc_space.
    - apply Forall_forall. intros l' Hl'%list_elem_of_In.
      apply not_true_is_false. intros Hs'.
      assert (existsb is_stamp lines = true); [|congruence].
      apply existsb_exists. eauto. }
  rewrite Forall_forall in HF. apply list_elem_of_In in Hl.
  specialize (HF _ Hl). congruence.
Qed.

#[local] Opaque stamp.

Lemma resplit_appended_count date_str lines :
  iso_date date_str = true -> lines_ok lines ->
  existsb is_stamp lines = false ->
  length (List.filter is_stamp
            (splitlines (join (terminate_last lines ++ [stamp date_str ++ [LF]]))))
  = 1.
Proof.
  intros Hd Hok. pose proof (stamp_nobreak _ Hd) as Hsb.
  pose proof (is_stamp_stamp_lf _ Hd) as Hst.
  assert (Hone : splitlines (stamp date_str ++ [LF]) = [stamp date_str ++ [LF]]).
  { by rewrite (splitlines_line _ LF []). }
  assert (Hlf : is_stamp [LF] = false) by reflexivity.
  induction Hok as [|l Hl Hb|b c ls Hb Hc Hcr Hls IH]; intros Hs; simpl in Hs.
  - rewrite terminate_last_nil. simpl app. rewrite join_singleton, Hone.
    cbn [List.filter]. by rewrite Hst.
  - apply orb_false_iff in Hs as [Hs _].
    rewrite terminate_last_singleton, decide_False by (by apply nobreak_not_lf).
    simpl app. rewrite join_cons, join_singleton, <- app_assoc. simpl app.
    rewrite splitlines_line, Hone by done. cbn [List.filter].
    by rewrite is_stamp_snoc_space, Hs, Hst.
  - apply orb_false_iff in Hs as [Hs1 Hs].
    destruct (decide (ls = [])) as [->|Hne].
    + rewrite terminate_last_singleton, last_snoc.
      simpl app. rewrite join_cons, join_singleton. case_decide as Hlf'.
      * rewrite <- app_assoc. simpl app. rewrite splitlines_line, Hone by done.
        cbn [List.filter]. by rewrite Hs1, Hst.
      * rewrite <- !app_assoc. simpl app. rewrite splitlines_line by done.
        rewrite splitlines_lf, Hone. cbn [List.filter].
        by rewrite Hs1, Hlf, Hst.
    + rewrite terminate_last_cons by done. rewrite <- app_comm_cons, join_cons.
      rewrite <- app_assoc. simpl app. rewrite splitlines_line by done.
      cbn [List.filter]. rewrite Hs1. by apply IH.
Qed.

#[local] Transparent stamp.

(** X3: for a well-formed date and a document, as read, in which no
    stamp line is closed by a boundary other than the line feed, the
    content written holds as many stamp lines as the document had, and
    exactly one when it had none. *)
Theorem stamp_lines_counted date_str original :
  iso_date date_str = true ->
  no_cr original ->
  Forall (fun l => is_stamp l = true -> other_break l = false)
         (splitlines original) ->
  length (List.filter is_stamp (splitlines (new_content date_str original)))
  = Nat.max 1 (length (List.filter is_stamp (splitlines original))).
Proof.
  intros Hd Hcr Hf. destruct (existsb is_stamp (splitlines original)) eqn:He.
  - rewrite splitlines_new_content_replaced by done.
    rewrite updated_lines_replaced by done.
    rewrite filter_map_length by (intros l; by apply is_stamp_rewrite_line).
    apply filter_some in He. lia.
  - unfold new_content. rewrite updated_lines_appended by done.
    rewrite resplit_appended_count
      by (try done; by apply lines_ok_splitlines).
    by rewrite (filter_none _ _ He).
Qed.

(** X4: whatever the document and the date string, the new content
    contains the text [Last updated: <date_str>]. *)
Theorem new_content_contains_stamp date_str original :
  exists before after,
    new_content date_str original
    = before ++ (cps "Last updated: " ++ date_str) ++ after.
Proof.
  fold (stamp date_str). unfold new_content, join.
  destruct (existsb is_stamp (splitlines original)) eqn:He.
  - rewrite updated_lines_replaced by done.
    apply existsb_exists in He as (l & (l1 & l2 & ->)%in_split & Hl).
    rewrite map_app, concat_app. cbn [map concat].
    unfold rewrite_line at 2. rewrite Hl, normalize_line_last.
    eexists _, _. rewrite <- (app_assoc (stamp date_str)). reflexivity.
  - rewrite updated_lines_appended by done.
    rewrite concat_app. cbn [concat]. rewrite app_nil_r.
    eexists _, [LF]. reflexivity.
Qed.

Lemma splitlines_nonempty s : Forall (fun l : str => l <> []) (splitlines s).
Proof.
  induction s as [|c s IH]; [constructor|].
  destruct (is_linebreak c) eqn:Hc.
  - destruct (decide (c = CR /\ head s = Some LF)) as [[-> Hs]|Hn].
    + destruct s as [|c' s']; [done|]. injection Hs as ->.
      rewrite splitlines_crlf. rewrite splitlines_lf in IH.
      apply Forall_cons in IH as [_ IH]. by constructor.
    + rewrite splitlines_break by (try done; intros -> Hs; apply Hn; done).
      by constructor.
  - rewrite splitlines_char by done.
    destruct (splitlines s) as [|l ls]; [by repeat constructor|].
    apply Forall_cons in IH as [_ IH]. by constructor.
Qed.

Lemma last_app_nonempty (l1 l2 : str) : l2 <> [] -> last (l1 ++ l2) = last l2.
Proof.
  intros H. rewrite last_app. destruct (last l2) eqn:Hl; [done|].
  by apply last_None in Hl.
Qed.

Lemma join_snoc (lines : list str) (l : str) :
  join (lines ++ [l]) = join lines ++ l.
Proof. unfold join. rewrite concat_app. cbn [concat]. by rewrite app_nil_r. Qed.

Lemma join_terminate_last (lines : list str) :
  Forall (fun l : str => l <> []) lines ->
  join (terminate_last lines)
  = join lines
    ++ (if decide (join lines = [] \/ last (join lines) = Some LF)
        then [] else [LF]).
Proof.
  intros Hne. destruct (last lines) as [l|] eqn:Hl.
  - apply last_Some in Hl as [lines' ->].
    apply Forall_app in Hne as [_ Hl]. rewrite Forall_singleton in Hl.
    rewrite terminate_last_snoc, !join_snoc, last_app_nonempty by done.
    destruct (decide (last l = Some LF)) as [Hlf|Hlf].
    + rewrite decide_True by (by right). by rewrite app_nil_r.
    + rewrite decide_False; [by rewrite app_assoc|].
      intros [[_ ?]%app_eq_nil|?]; done.
  - apply last_None in Hl. subst lines. rewrite terminate_last_nil.
    by rewrite decide_True by (by left).
Qed.

Lemma append_keeps_original_eq date_str original :
  existsb is_stamp (splitlines original) = false ->
  new_content date_str original
  = original
    ++ (if decide (original = [] \/ last original = Some LF) then [] else [LF])
    ++ cps "Last updated: " ++ date_str ++ [LF].
Proof.
  intros He. unfold new_content. rewrite updated_lines_appended by done.
  rewrite join_snoc, join_terminate_last by apply splitlines_nonempty.
  rewrite join_splitlines_eq. unfold stamp. by rewrite <- !app_assoc.
Qed.

(** X5: when no line matches the stamp pattern, the new content is the
    original content, a line feed if the original is not empty and does
    not end with one, and the new stamp line: nothing of the original is
    lost or reordered. *)
Theorem append_keeps_original date_str original :
  existsb is_stamp (splitlines original) = false ->
  new_content date_str original
  = original
    ++ (if decide (original = [] \/ last original = Some LF) then [] else [LF])
    ++ cps "Last updated: " ++ date_str ++ [LF].
Proof. apply append_keeps_original_eq. Qed.

(** X6: for a well-formed date, the new content ends with a line feed
    exactly when a stamp line was appended or the original ended with
    one: replacing in place neither adds nor removes the final line
    feed. *)
Theorem final_line_feed date_str original :
  iso_date date_str = true ->
  last (new_content date_str original) = Some LF <->
  existsb is_stamp (splitlines original) = false \/ last original = Some LF.
Proof.
  intros Hd. destruct (existsb is_stamp (splitlines original)) eqn:He.
  - unfold new_content. rewrite updated_lines_replaced by done.
    pose proof (splitlines_nonempty original) as Hne.
    pose proof (join_splitlines_eq original) as Hj.
    destruct (last (splitlines original)) as [l|] eqn:Hl.
    + apply last_Some in Hl as [lines Hl]. rewrite Hl in Hne, Hj |- *.
      apply Forall_app in Hne as [_ Hne]. rewrite Forall_singleton in Hne.
      rewrite join_snoc in Hj. rewrite <- Hj.
      rewrite map_app. cbn [map]. rewrite join_snoc.
      rewrite (last_app_nonempty _ l) by done.
      unfold rewrite_line. destruct (is_stamp l) eqn:Hs.
      * rewrite normalize_line_last.
        destruct (decide (last l = Some LF)) as [Hlf|Hlf].
        -- rewrite app_assoc, last_snoc. split; [by right|done].
        -- rewrite !app_nil_r, last_app_nonempty
             by (unfold stamp; by destruct date_str).
           split; [by intros ?%stamp_last_not_lf|by intros [?|?]].
      * rewrite last_app_nonempty by done. split; [by right|by intros [?|?]].
    + apply last_None in Hl. rewrite Hl in He. done.
  - rewrite append_keeps_original_eq by done.
    rewrite !app_assoc, last_snoc. split; [by left|done].
Qed.

(** ** What a run touches *)

Lemma update_readme_dir path date_str w :
  files w !! path = Some Dir ->
  update_readme path date_str w = (Raise (IsADirectoryError path), w).
Proof.
  intros Hf. unfold update_readme, mbind, M_bind, bind, path_exists, read_text.
  rewrite bool_decide_eq_true_2 by (rewrite Hf; eauto). by rewrite Hf.
Qed.


Lemma main_run argv args w :
  parse_args argv = Parsed args ->
  main argv w
  = match files w !! target args with
    | None =>
        (Raise (SystemExit 2),
         World (files w) (writes w) (stdout w)
               (stderr w ++ [cps "README file not found: " ++ cps (target args)])
               (today w))
    | Some Dir => (Raise (IsADirectoryError (target args)), w)
    | Some (File _) =>
        let w1 := (update_readme (target args) (today w) w).2 in
        (Ok 0%Z,
         World (files w1) (writes w1)
               (stdout w ++ (if print_date args then [today w] else []))
               (stderr w) (today w))
    end.
Proof.
  intros Hp. unfold main. rewrite Hp.
  unfold mbind, M_bind, bind, path_exists, parser_error, _current_utc_date,
    mret, M_ret, ret, print.
  destruct (files w !! target args) as [[content|]|] eqn:Hf.
  - rewrite bool_decide_eq_true_2 by eauto.
    assert (Ho : original_of w (target args) = Some (universal_newlines content)).
    { unfold original_of. by rewrite Hf. }
    rewrite (update_readme_run _ _ _ _ Ho). cbv zeta.
    case_decide; destruct (print_date args); cbn; rewrite ?app_nil_r;
      try done; by destruct w.
  - rewrite bool_decide_eq_true_2 by eauto.
    by rewrite update_readme_dir.
  - by rewrite bool_decide_eq_false_2 by (by intros [? ?]).
Qed.

(** X8: on a target that is a readable file, [main] leaves the files and
    the write log as [update_readme] with the date of the clock leaves
    them, prints that date, and nothing else, exactly when [--print-date]
    was given, writes nothing to standard error and returns 0. *)
Theorem main_updates_then_prints argv args w content :
  parse_args argv = Parsed args ->
  files w !! target args = Some (File content) ->
  let w1 := (update_readme (target args) (today w) w).2 in
  main argv w
  = (Ok 0%Z,
     World (files w1) (writes w1)
           (stdout w ++ (if print_date args then [today w] else []))
           (stderr w) (today w)).
Proof. intros Hp Hf. by rewrite (main_run _ _ _ Hp), Hf. Qed.

(** X9: on a target that is a directory the existence test passes, the
    read fails, and [main] ends with that exception (process status 1)
    in a world it has not changed: nothing written, nothing printed. *)
Theorem main_on_directory argv args w :
  parse_args argv = Parsed args ->
  files w !! target args = Some Dir ->
  main argv w = (Raise (IsADirectoryError (target args)), w)
  /\ exit_status (main argv w).1 = 1%Z.
Proof. intros Hp Hf. by rewrite (main_run _ _ _ Hp), Hf. Qed.


(** X11: [main] changes no file other than its target. *)
Theorem main_touches_only_target argv args w p :
  parse_args argv = Parsed args ->
  p <> target args ->
  files (main argv w).2 !! p = files w !! p.
Proof.
  intros Hp Hne. rewrite (main_run _ _ _ Hp).
  destruct (files w !! target args) as [[content|]|] eqn:Hf; try done.
  cbn [snd files].
  destruct (original_of w (target args)) as [original|] eqn:Ho.
  - rewrite (update_readme_run _ _ _ _ Ho). case_decide; [done|].
    cbn [snd written files]. by rewrite lookup_insert_ne.
  - unfold original_of in Ho. by rewrite Hf in Ho.
Qed.

End StampUpdater.

(** * The properties on concrete documents *)


Lemma update_readme_writes_iff_changed_witness :
  update_readme ascii_digits_only "README.md" date
                (world_of "README.md" doc_title)
  = (Ok true,
     written (world_of "README.md" doc_title) "README.md"
             (cps "# Title" ++ [LF] ++ cps "Last updated: 2024-05-06" ++ [LF])).
Proof.
  refine (proj1 (update_readme_writes_iff_changed ascii_digits_only
                   "README.md" date (world_of "README.md" doc_title)
                   doc_title eq_refl) _).
  vm_compute. discriminate.
Defined.

(** C5, as stated, fails on a document that already carries the stamp of
    the day: the first call returns false. *)
Lemma first_run_unchanged_when_current :
  update_readme ascii_digits_only "README.md" date
                (world_of "README.md" doc_current)
  = (Ok false, world_of "README.md" doc_current).
Proof. vm_compute. reflexivity. Qed.

Lemma second_run_unchanged_witness :
  exists changed w1,
    update_readme ascii_digits_only "README.md" date
                  (world_of "README.md" doc_two_stamps)
    = (Ok changed, w1)
    /\ (changed = true <->
        new_content ascii_digits_only date doc_two_stamps <> doc_two_stamps)
    /\ update_readme ascii_digits_only "README.md" date w1 = (Ok false, w1).
Proof.
  apply (second_run_unchanged ascii_digits_only "README.md" date
           (world_of "README.md" doc_two_stamps) doc_two_stamps);
    [reflexivity | reflexivity |].
  change (splitlines doc_two_stamps)
    with [cps "Last updated: 2020-01-01" ++ [LF]; cps "text" ++ [LF];
          cps "LAST UPDATED: 2021-12-31" ++ [LF]].
  repeat constructor; intros _; reflexivity.
Defined.

(** C7, as stated, fails on a path whose parent directory is missing:
    the path is read as the empty document and the write raises. *)
Lemma update_readme_missing_parent_fails :
  files world_empty !! "nodir/README.md" = None
  /\ update_readme ascii_digits_only "nodir/README.md" date world_empty
     = (Raise (FileNotFoundError "nodir/README.md"), world_empty).
Proof. vm_compute. done. Qed.

Lemma update_readme_empty_document_witness :
  original_of world_with_dir "docs/README.md" = Some []
  /\ update_readme ascii_digits_only "docs/README.md" date world_with_dir
     = (Ok true,
        written world_with_dir "docs/README.md"
                (cps "Last updated: " ++ date ++ [LF])).
Proof.
  apply (update_readme_empty_document ascii_digits_only "docs/README.md" date
           world_with_dir).
  left. split; reflexivity.
Defined.

Lemma main_exit_status_witness :
  main ascii_digits_only argv_plain ["notes.md"] (world_of "README.md" doc_title)
  = (Raise (SystemExit 2),
     World (files (world_of "README.md" doc_title)) [] []
           [cps "README file not found: notes.md"] date)
  /\ exists w',
      main ascii_digits_only argv_plain ["--print-date"]
           (world_of "README.md" doc_title)
      = (Ok 0%Z, w').
Proof.
  split.
  - refine (proj1 (main_exit_status ascii_digits_only argv_plain ["notes.md"]
                     (Namespace "notes.md" false)
                     (world_of "README.md" doc_title) eq_refl) _).
    reflexivity.
  - refine (proj2 (main_exit_status ascii_digits_only argv_plain
                     ["--print-date"] (Namespace "README.md" true)
                     (world_of "README.md" doc_title) eq_refl) doc_title _).
    reflexivity.
Defined.

Lemma update_readme_deterministic_witness :
  exists changed new,
    (update_readme ascii_digits_only "README.md" date
                   (world_of "README.md" doc_title)).1 = Ok changed
    /\ (update_readme ascii_digits_only "docs/NOTES.md" date
                      (world_of "docs/NOTES.md" doc_title)).1 = Ok changed
    /\ (update_readme ascii_digits_only "README.md" date
                      (world_of "README.md" doc_title)).2
       = (if changed
          then written (world_of "README.md" doc_title) "README.md" new
          else world_of "README.md" doc_title)
    /\ (update_readme ascii_digits_only "docs/NOTES.md" date
                      (world_of "docs/NOTES.md" doc_title)).2
       = (if changed
          then written (world_of "docs/NOTES.md" doc_title) "docs/NOTES.md" new
          else world_of "docs/NOTES.md" doc_title).
Proof.
  apply (update_readme_deterministic ascii_digits_only date doc_title);
    reflexivity.
Defined.

(** * The further properties on concrete documents *)

Lemma is_stamp_iff_shape_witness :
  is_stamp ascii_digits_only line_padded = true <->
  exists ws1 core ws2,
    line_padded = ws1 ++ core ++ ws2
    /\ Forall (fun c => is_space c = true) ws1
    /\ Forall (fun c => is_space c = true) ws2
    /\ stamp_shape ascii_digits_only core.
Proof.
  apply (is_stamp_iff_shape ascii_digits_only line_padded).
  intros c H. discriminate H.
Defined.

Lemma normalize_line_stable_witness :
  splitlines (_normalize_line line_padded date)
  = [_normalize_line line_padded date]
  /\ is_stamp ascii_digits_only (_normalize_line line_padded date) = true
  /\ _normalize_line (_normalize_line line_padded date) date
     = _normalize_line line_padded date.
Proof.
  apply (normalize_line_stable ascii_digits_only date line_padded).
  reflexivity.
Defined.

Lemma stamp_lines_counted_witness :
  length (List.filter (is_stamp ascii_digits_only)
            (splitlines (new_content ascii_digits_only date doc_two_stamps)))
  = Nat.max 1 (length (List.filter (is_stamp ascii_digits_only)
                                   (splitlines doc_two_stamps))).
Proof.
  apply (stamp_lines_counted ascii_digits_only date doc_two_stamps).
  - reflexivity.
  - vm_compute. repeat (constructor; [discriminate|]). constructor.
  - change (splitlines doc_two_stamps)
      with [cps "Last updated: 2020-01-01" ++ [LF]; cps "text" ++ [LF];
            cps "LAST UPDATED: 2021-12-31" ++ [LF]].
    repeat constructor; intros _; reflexivity.
Defined.

Lemma append_keeps_original_witness :
  new_content ascii_digits_only date doc_open
  = doc_open
    ++ (if decide (doc_open = [] \/ last doc_open = Some LF) then [] else [LF])
    ++ cps "Last updated: " ++ date ++ [LF].
Proof.
  apply (append_keeps_original ascii_digits_only date doc_open).
  vm_compute. reflexivity.
Defined.

Lemma final_line_feed_witness :
  last (new_content ascii_digits_only date doc_stamped) = Some LF <->
  existsb (is_stamp ascii_digits_only) (splitlines doc_stamped) = false
  \/ last doc_stamped = Some LF.
Proof.
  apply (final_line_feed ascii_digits_only date doc_stamped). reflexivity.
Defined.

Lemma main_updates_then_prints_witness :
  main ascii_digits_only argv_plain ["--print-date"]
       (world_of "README.md" doc_title)
  = (Ok 0%Z,
     World (files (update_readme ascii_digits_only "README.md" date
                                 (world_of "README.md" doc_title)).2)
           (writes (update_readme ascii_digits_only "README.md" date
                                  (world_of "README.md" doc_title)).2)
           [date] [] date).
Proof.
  apply (main_updates_then_prints ascii_digits_only argv_plain
           ["--print-date"] (Namespace "README.md" true)
           (world_of "README.md" doc_title) doc_title);
    reflexivity.
Defined.

Lemma main_on_directory_witness :
  main ascii_digits_only argv_plain ["docs"; "--print-date"] world_with_dir
  = (Raise (IsADirectoryError "docs"), world_with_dir)
  /\ exit_status
       (main ascii_digits_only argv_plain ["docs"; "--print-date"]
             world_with_dir).1
     = 1%Z.
Proof.
  apply (main_on_directory ascii_digits_only argv_plain
           ["docs"; "--print-date"] (Namespace "docs" true) world_with_dir);
    reflexivity.
Defined.


Lemma main_touches_only_target_witness :
  files (main ascii_digits_only argv_plain ["README.md"] world_two_files).2
    !! "NOTES.md"
  = files world_two_files !! "NOTES.md".
Proof.
  apply (main_touches_only_target ascii_digits_only argv_plain ["README.md"]
           (Namespace "README.md" false) world_two_files "NOTES.md").
  - reflexivity.
  - discriminate.
Defined.
